(** * CardioRetina: the asset-loading and inference pipeline of [app/app.py]

    A shallow embedding of the Python program.  Python floats are IEEE-754
    binary64 numbers, taken from the kernel's executable specification
    [SpecFloat] (precision 53, [emax] 1024); numpy arrays are a shape
    together with a flat row-major buffer; the effects of the script (the
    Streamlit resource cache, the session state, the calls into Keras and
    PIL) are threaded through an explicit world by a small state-and-error
    monad.  Keras, PIL and the file system are collaborators outside the
    program: their behaviour is a parameter ([Env], [PIL]). *)

From Stdlib Require Import ZArith QArith Qround Qabs Lia Lqa List String Ascii Bool.
From Stdlib Require Import DecimalString.
From Stdlib Require DecimalNat DecimalFacts.
From Stdlib Require Import Floats.SpecFloat.
Import ListNotations.

Open Scope Z_scope.

(* ================================================================== *)
(** * Part I. Definitions *)
(* ================================================================== *)

(** ** Python floats: IEEE-754 binary64 *)

Definition prec : Z := 53.
Definition emax : Z := 1024.

Definition float := spec_float.

(** [float(n)] for an integer [n]: the nearest binary64. *)
Definition of_Z (n : Z) : float := binary_normalize prec emax n 0 false.

Definition fmul : float -> float -> float := SFmul prec emax.
Definition fdiv : float -> float -> float := SFdiv prec emax.

(** [x > y] on floats is IEEE [y < x]; a NaN operand makes it [False]. *)
Definition fgt (x y : float) : bool := SFltb y x.

(** The decimal literal [n * 10^-k].  Both [n] and [10^k] are exactly
    representable for the literals of the program, so one correctly rounded
    division gives the correctly rounded literal. *)
Definition decimal (n : Z) (k : Z) : float := fdiv (of_Z n) (of_Z (10 ^ k)).

(** The IEEE validity predicate (canonical mantissa, exponent in range). *)
Definition valid (x : float) : bool := valid_binary prec emax x.

Definition is_finite (x : float) : bool :=
  match x with
  | S754_zero _ | S754_finite _ _ _ => true
  | _ => false
  end.

(** The exact rational value of a finite float ([0] for the others). *)
Definition value (x : float) : Q :=
  match x with
  | S754_finite s m e =>
      let n := if s then Zneg m else Zpos m in
      match e with
      | Zneg k => n # (2 ^ k)
      | _ => inject_Z (n * 2 ^ e)
      end
  | _ => 0%Q
  end.

(** A probability: a valid finite binary64 whose value lies in [0, 1]. *)
Definition is_probability (p : float) : Prop :=
  valid p = true /\ is_finite p = true /\ (0 <= value p)%Q /\ (value p <= 1)%Q.

(** ** Formatting with [:.1f]

    CPython prints the exact binary value correctly rounded to one
    fractional digit, ties going to the even neighbour. *)

Definition round_half_even (q : Q) : Z :=
  let f := Qfloor q in
  match Qcompare (q - inject_Z f) (1 # 2) with
  | Lt => f
  | Gt => f + 1
  | Eq => if Z.even f then f else f + 1
  end.

Definition str_Z (n : Z) : string :=
  NilZero.string_of_uint (N.to_uint (Z.to_N n)).

Definition digit_char (d : Z) : ascii :=
  ascii_of_N (48 + Z.to_N d).

(** The digits of [n] tenths: integer part, a point, one fractional digit. *)
Definition tenths_string (n : Z) : string :=
  (str_Z (n / 10) ++ "." ++ String (digit_char (n mod 10)) EmptyString)%string.

Definition format_1f (x : float) : string :=
  match x with
  | S754_nan => "nan"%string
  | S754_infinity s => if s then "-inf"%string else "inf"%string
  | S754_zero s => if s then "-0.0"%string else "0.0"%string
  | S754_finite s _ _ =>
      ((if s then "-" else "") ++
       tenths_string (round_half_even (Qabs (value x) * 10)))%string
  end.

(** ** Risk classifier (lines 112-114 and 119 of [main]) *)

Definition is_high (prediction : float) : bool := fgt prediction (decimal 5 1).

Definition label (prediction : float) : string :=
  if is_high prediction then "high risk"%string else "low risk"%string.

Definition status_class (prediction : float) : string :=
  if is_high prediction then "risk-high-text"%string else "risk-low-text"%string.

(** [f"{prediction*100:.1f}"] *)
Definition percent (prediction : float) : string :=
  format_1f (fmul prediction (of_Z 100)).

(** ** numpy arrays: a shape and a flat row-major buffer *)

Record ndarray (A : Type) : Type := mk_ndarray {
  shape : list nat;
  data : list A
}.
Arguments mk_ndarray {A} _ _.
Arguments shape {A} _.
Arguments data {A} _.

Definition size_of (sh : list nat) : nat := fold_right Nat.mul 1%nat sh.

(** [np.expand_dims(a, axis=0)] *)
Definition expand_dims {A} (a : ndarray A) : ndarray A :=
  mk_ndarray (1%nat :: shape a) (data a).

(** [a / 255.0] on an integer array: every element is converted to binary64
    and divided by the literal. *)
Definition div_255 (a : ndarray Z) : ndarray float :=
  mk_ndarray (shape a) (map (fun v => fdiv (of_Z v) (decimal 2550 1)) (data a)).

(** [a.flatten()] *)
Definition flatten {A} (a : ndarray A) : ndarray A :=
  mk_ndarray [List.length (data a)] (data a).

(** The check behind the range of the normalised samples. *)
Definition unit_interval_check (v : Z) : bool :=
  let x := fdiv (of_Z v) (decimal 2550 1) in
  valid x && is_finite x && Qle_bool 0 (value x) && Qle_bool (value x) 1.

(** ** PIL images *)

Inductive mode : Type :=
  | Mode1 | ModeL | ModeP | ModeLA | ModeRGB | ModeRGBA | ModeCMYK
  | ModeYCbCr | ModeI16 | ModeI.

Definition bands (m : mode) : nat :=
  match m with
  | Mode1 | ModeL | ModeP | ModeI16 | ModeI => 1
  | ModeLA => 2
  | ModeRGB | ModeYCbCr => 3
  | ModeRGBA | ModeCMYK => 4
  end.

Definition sample_ok (m : mode) (v : Z) : Prop :=
  match m with
  | ModeI16 => 0 <= v < 65536
  | ModeI => - 2147483648 <= v < 2147483648
  | _ => 0 <= v <= 255
  end.

(** An image: its mode, its size (width, height) and its samples, row by
    row, the bands of a pixel next to each other. *)
Record Image : Type := mk_Image {
  im_mode : mode;
  im_size : nat * nat;
  im_data : list Z
}.

Definition wf_image (im : Image) : Prop :=
  (0 < fst (im_size im))%nat /\ (0 < snd (im_size im))%nat /\
  List.length (im_data im) =
    (snd (im_size im) * fst (im_size im) * bands (im_mode im))%nat /\
  Forall (sample_ok (im_mode im)) (im_data im).

(** [np.array(img)]: height, then width, then (for several bands) band. *)
Definition np_array (im : Image) : ndarray Z :=
  let '(w, h) := im_size im in
  mk_ndarray
    (if Nat.eqb (bands (im_mode im)) 1 then [h; w] else [h; w; bands (im_mode im)])
    (im_data im).

(** ** Errors, the world and the monad of the script *)

(** A raised [Exception], by its message. *)
Definition exn := string.

Inductive result (A : Type) : Type :=
  | Ok (a : A)
  | Raise (e : exn).
Arguments Ok {A} _.
Arguments Raise {A} _.

(** The value [json.load] returns for a JSON text. *)
#[warnings="-register-all"]
Inductive Json : Type :=
  | JNull
  | JBool (b : bool)
  | JInt (n : Z)
  | JFloat (x : float)
  | JStr (s : string)
  | JArr (items : list Json)
  | JObj (members : list (string * Json)).

(** As a Python object in the returned pair: JSON [null] is [None]. *)
Definition py_of_json (j : Json) : option Json :=
  match j with
  | JNull => None
  | _ => Some j
  end.

(** What [model.predict] returns: one array for a model with one output, a
    list or a dict of arrays for a model with several. *)
Inductive Prediction : Type :=
  | PArray (a : ndarray float)
  | PList (outs : list (ndarray float))
  | PDict (outs : list (string * ndarray float)).

(** [model.predict(x, verbose=0)] of a loaded network. *)
Definition Net := ndarray float -> result Prediction.

(** A model object: its identity (the address of the Python object) and the
    network it computes. *)
Record Model : Type := mk_Model {
  m_addr : nat;
  m_net : Net
}.

Inductive Layer : Type :=
  | MobileNetV2 (weights : option string) (include_top : bool)
                (input_shape : list nat)
  | GlobalAveragePooling2D
  | Dropout (rate : float)
  | Dense (units : nat) (activation : string).

Inductive Event : Type :=
  | EvOpen (path : string)
  | EvLoadModel (path : string) (compile : bool)
  | EvSequential (layers : list Layer)
  | EvLoadWeights (path : string)
  | EvError (msg : string)
  | EvImageOpen (file : list Byte.byte)
  | EvImage (width : nat)
  | EvPredict (addr : nat) (input : ndarray float)
  | EvResult (cls lbl pct : string)
  | EvWarning
  | EvSuccess.

Definition Assets : Type := option Model * option Json.

(** The process: the resource cache of [st.cache_resource], the number of
    times the load routine has run, the next free object address, the
    session's [uploader_key] and the calls made so far, oldest first. *)
Record World : Type := mk_World {
  cache : option Assets;
  loads : nat;
  next_addr : nat;
  uploader_key : option nat;
  log : list Event
}.

Definition M (A : Type) : Type := World -> result A * World.

Definition ret {A} (a : A) : M A := fun w => (Ok a, w).

Definition bind {A B} (c : M A) (k : A -> M B) : M B :=
  fun w =>
    match c w with
    | (Ok a, w') => k a w'
    | (Raise e, w') => (Raise e, w')
    end.

Notation "x <- c ;; k" := (bind c (fun x => k))
  (at level 61, c at next level, right associativity).
Notation "c ;;; k" := (bind c (fun _ => k))
  (at level 61, right associativity).

(** [try: c  except Exception as e: h e] *)
Definition try_except {A} (c : M A) (h : exn -> M A) : M A :=
  fun w =>
    match c w with
    | (Ok a, w') => (Ok a, w')
    | (Raise e, w') => h e w'
    end.

Definition lift {A} (r : result A) : M A := fun w => (r, w).

Definition add_log (w : World) (evs : list Event) : World :=
  mk_World (cache w) (loads w) (next_addr w) (uploader_key w) (log w ++ evs).

Definition emit (ev : Event) : M unit := fun w => (Ok tt, add_log w [ev]).

(** A call into a collaborator: logged, then its outcome. *)
Definition call {A} (ev : Event) (r : result A) : M A := emit ev ;;; lift r.

(** A new Python object. *)
Definition alloc : M nat :=
  fun w => (Ok (next_addr w),
            mk_World (cache w) (loads w) (S (next_addr w)) (uploader_key w) (log w)).

Definition tick_load : M unit :=
  fun w => (Ok tt, mk_World (cache w) (S (loads w)) (next_addr w) (uploader_key w)
                            (log w)).

Definition set_cache (v : Assets) (w : World) : World :=
  mk_World (Some v) (loads w) (next_addr w) (uploader_key w) (log w).

(** ** The collaborators *)

(** The file system and Keras, as the loader sees them. *)
Record Env : Type := mk_Env {
  BASE_DIR : string;
  (** [with open(path, 'r') as f: json.load(f)] *)
  json_load_file : string -> result Json;
  (** [tf.keras.models.load_model(path, compile=c)] *)
  load_model : string -> bool -> result Net;
  (** [model.load_weights(path)] on [models.Sequential(layers)] *)
  load_weights : list Layer -> string -> result Net
}.

(** The imaging collaborators: PIL's decoding, mode conversion and
    resampling, and Streamlit's [st.image], which scales the picture with
    PIL before it draws it.  [Image_open] stands for [Image.open] together
    with the decoding of the pixel data, which PIL defers to the first use
    (here the [convert] of the same line 106): either can raise.
    [st_image img w] is [st.image(img, width=w)]; it raises for a picture
    that Streamlit cannot scale to that width (one whose scaled height
    would be zero). *)
Record PIL : Type := mk_PIL {
  Image_open : list Byte.byte -> result Image;
  convert : Image -> mode -> Image;
  resize : Image -> nat * nat -> Image;
  st_image : Image -> nat -> result unit
}.

(** What PIL documents: a decoded image is well formed; [convert("RGB")]
    gives a well-formed RGB image of the same size; [resize(size)] gives a
    well-formed image of the requested size in the same mode. *)
Definition PIL_contract (P : PIL) : Prop :=
  (forall b im, Image_open P b = Ok im -> wf_image im) /\
  (forall im, wf_image im ->
     wf_image (convert P im ModeRGB) /\
     im_mode (convert P im ModeRGB) = ModeRGB /\
     im_size (convert P im ModeRGB) = im_size im) /\
  (forall im sz, wf_image im -> (0 < fst sz)%nat -> (0 < snd sz)%nat ->
     wf_image (resize P im sz) /\
     im_mode (resize P im sz) = im_mode im /\
     im_size (resize P im sz) = sz).

(** ** Configuration and paths (lines 9-12) *)

Definition IMAGE_RES : nat * nat := (224%nat, 224%nat).

(** The last character of a string is a slash. *)
Fixpoint ends_with_slash (s : string) : bool :=
  match s with
  | EmptyString => false
  | String c EmptyString => Ascii.eqb c "/"
  | String _ rest => ends_with_slash rest
  end.

(** [os.path.join(a, b)] (POSIX): an absolute [b] replaces [a]; otherwise
    the two are put together with one slash, which is left out after an
    empty [a] or an [a] that ends with a slash. *)
Definition path_join (a b : string) : string :=
  match b with
  | String "/" _ => b
  | _ =>
      match a with
      | EmptyString => b
      | _ => if ends_with_slash a then (a ++ b)%string
             else (a ++ "/" ++ b)%string
      end
  end.

Definition MODEL_PATH (E : Env) : string :=
  path_join (path_join (path_join (BASE_DIR E) "..") "models")
            "CardioRetina_Model.keras".

Definition META_PATH (E : Env) : string :=
  path_join (path_join (path_join (BASE_DIR E) "..") "models")
            "model_meta.json".

(** ** [load_model_assets] (lines 59-76) *)

(** The architecture rebuilt on line 70-71. *)
Definition fallback_layers : list Layer :=
  [ MobileNetV2 None false [224%nat; 224%nat; 3%nat];
    GlobalAveragePooling2D;
    Dropout (decimal 3 1);
    Dense 1 "sigmoid" ].

(** Lines 65-72: the direct load and, in its handler, the rebuilt model. *)
Definition load_or_rebuild (E : Env) : M Model :=
  try_except
    (net <- call (EvLoadModel (MODEL_PATH E) false)
                 (load_model E (MODEL_PATH E) false) ;;
     a <- alloc ;;
     ret (mk_Model a net))
    (fun _ =>
       a <- alloc ;;
       emit (EvSequential fallback_layers) ;;;
       net <- call (EvLoadWeights (MODEL_PATH E))
                   (load_weights E fallback_layers (MODEL_PATH E)) ;;
       ret (mk_Model a net)).

(** The body of the decorated function. *)
Definition load_model_assets_body (E : Env) : M Assets :=
  tick_load ;;;
  try_except
    (meta <- call (EvOpen (META_PATH E)) (json_load_file E (META_PATH E)) ;;
     model <- load_or_rebuild E ;;
     ret (Some model, py_of_json meta))
    (fun e =>
       emit (EvError ("Critical error loading assets: " ++ e)) ;;;
       ret (None, None)).

(** [@st.cache_resource]: the first call runs the body and stores the object
    it returns; every later call returns the stored object itself.  A body
    that raises stores nothing. *)
Definition cache_resource (body : M Assets) : M Assets :=
  fun w =>
    match cache w with
    | Some v => (Ok v, w)
    | None =>
        match body w with
        | (Ok v, w') => (Ok v, set_cache v w')
        | (Raise e, w') => (Raise e, w')
        end
    end.

Definition load_model_assets (E : Env) : M Assets :=
  cache_resource (load_model_assets_body E).

(** ** [handle_restart] (lines 78-79) *)

Definition handle_restart : M unit :=
  fun w =>
    match uploader_key w with
    | Some k => (Ok tt, mk_World (cache w) (loads w) (next_addr w) (Some (S k)) (log w))
    | None => (Raise "AttributeError: st.session_state has no attribute uploader_key"%string, w)
    end.

(** ** [main] (lines 81-131) *)

(** Lines 85-86. *)
Definition init_uploader_key : M unit :=
  fun w =>
    match uploader_key w with
    | Some _ => (Ok tt, w)
    | None => (Ok tt, mk_World (cache w) (loads w) (next_addr w) (Some 0%nat) (log w))
    end.

(** Line 106: [Image.open(file).convert("RGB")]. *)
Definition open_rgb (P : PIL) (file : list Byte.byte) : M Image :=
  img <- call (EvImageOpen file) (Image_open P file) ;;
  ret (convert P img ModeRGB).

(** Line 109, after the resize: [np.expand_dims(np.array(r) / 255.0, axis=0)]. *)
Definition to_tensor (r : Image) : ndarray float :=
  expand_dims (div_255 (np_array r)).

(** Line 109. *)
Definition preprocess (P : PIL) (img : Image) : ndarray float :=
  to_tensor (resize P img IMAGE_RES).

(** [a[0]] on a one-dimensional array. *)
Definition getitem0 {A} (a : ndarray A) : result A :=
  match data a with
  | x :: _ => Ok x
  | [] => Raise "IndexError: index 0 is out of bounds for axis 0 with size 0"%string
  end.

(** Line 110: [float(out.flatten()[0])].  Only an array has [flatten]. *)
Definition first_scalar (out : Prediction) : result float :=
  match out with
  | PArray a => getitem0 (flatten a)
  | PList _ =>
      Raise "AttributeError: 'list' object has no attribute 'flatten'"%string
  | PDict _ =>
      Raise "AttributeError: 'dict' object has no attribute 'flatten'"%string
  end.

(** Lines 105-128, the body of [if file and model:]. *)
Definition classify (P : PIL) (model : Model) (file : list Byte.byte) : M unit :=
  img <- open_rgb P file ;;
  call (EvImage 220) (st_image P img 220) ;;;
  let processed_img := preprocess P img in
  out <- call (EvPredict (m_addr model) processed_img)
              (m_net model processed_img) ;;
  prediction <- lift (first_scalar out) ;;
  emit (EvResult (status_class prediction) (label prediction)
                 (percent prediction)) ;;;
  (if is_high prediction then emit EvWarning else emit EvSuccess).

(** [classify] in closed form: how it ends and what it logs, whatever the
    world it runs in ([classify_eq] below). *)
Definition classify_outcome (P : PIL) (model : Model) (file : list Byte.byte)
  : result unit * list Event :=
  match Image_open P file with
  | Raise e => (Raise e, [EvImageOpen file])
  | Ok img =>
      match st_image P (convert P img ModeRGB) 220 with
      | Raise e => (Raise e, [EvImageOpen file; EvImage 220])
      | Ok _ =>
          let t := preprocess P (convert P img ModeRGB) in
          let called :=
            [EvImageOpen file; EvImage 220; EvPredict (m_addr model) t] in
          match m_net model t with
          | Raise e => (Raise e, called)
          | Ok out =>
              match first_scalar out with
              | Raise e => (Raise e, called)
              | Ok x =>
                  (Ok tt,
                   called ++ [EvResult (status_class x) (label x) (percent x);
                              if is_high x then EvWarning else EvSuccess])
              end
          end
      end
  end.

(** One run of the script with the uploader holding [upload].  The calls
    that only draw (styles, title, captions, rules, the restart button) are
    left out; [st.image] and the result block are logged.  An uploaded file
    and a model object are both truthy, [None] is not. *)
Definition main (E : Env) (P : PIL) (upload : option (list Byte.byte)) : M unit :=
  assets <- load_model_assets E ;;
  init_uploader_key ;;;
  match upload, fst assets with
  | Some file, Some model => classify P model file
  | _, _ => ret tt
  end.

(** ** The process over time *)

(** What the user does between two runs of the script. *)
Inductive Action : Type :=
  | Rerun (upload : option (list Byte.byte))
  | ClickRestart.

(** Streamlit shows an exception that escapes the script and keeps the
    process, its cache and the session alive. *)
Definition step (E : Env) (P : PIL) (w : World) (a : Action) : World :=
  match a with
  | Rerun upload => snd (main E P upload w)
  | ClickRestart => snd ((handle_restart ;;; main E P None) w)
  end.

Definition run_session (E : Env) (P : PIL) (acts : list Action) (w : World) : World :=
  fold_left (step E P) acts w.

Definition init_world : World := mk_World None 0 0 None [].

(** What a run from [w] to [w'] added to the log. *)
Definition events_since (w w' : World) : list Event :=
  skipn (List.length (log w)) (log w').

(** Asset loading fails: the metadata cannot be read, or neither the direct
    load nor the rebuilt model with the weights succeeds. *)
Definition load_fails (E : Env) : Prop :=
  (exists e, json_load_file E (META_PATH E) = Raise e) \/
  ((exists e, load_model E (MODEL_PATH E) false = Raise e) /\
   (exists e, load_weights E fallback_layers (MODEL_PATH E) = Raise e)).

(** The events of a log that belong to inference. *)
Definition is_inference (ev : Event) : bool :=
  match ev with
  | EvImageOpen _ | EvImage _ | EvPredict _ _ | EvResult _ _ _
  | EvWarning | EvSuccess => true
  | _ => false
  end.

(** The tensors handed to [model.predict], in order. *)
Definition predict_inputs (l : list Event) : list (ndarray float) :=
  flat_map (fun ev => match ev with EvPredict _ x => [x] | _ => [] end) l.

(** The model objects [model.predict] was called on, in order. *)
Definition predict_addrs (l : list Event) : list nat :=
  flat_map (fun ev => match ev with EvPredict a _ => [a] | _ => [] end) l.

(** ** Collaborators for the examples *)

(** A decoder that accepts one byte as a 1x1 grey image and nothing else; a
    conversion that spreads grey over three bands; a resampler that repeats
    the top-left pixel; a drawing that raises when scaling a wider picture
    down to the width leaves no height. *)
Definition stub_open (b : list Byte.byte) : result Image :=
  match b with
  | [x] => Ok (mk_Image ModeL (1%nat, 1%nat) [Z.of_N (Byte.to_N x)])
  | _ => Raise "UnidentifiedImageError: cannot identify image file"%string
  end.

Definition clamp8 (v : Z) : Z := Z.max 0 (Z.min 255 v).

Definition stub_convert (im : Image) (m : mode) : Image :=
  let g := clamp8 (hd 0 (im_data im)) in
  mk_Image m (im_size im)
    (repeat g (snd (im_size im) * fst (im_size im) * bands m)).

Definition stub_resize (im : Image) (sz : nat * nat) : Image :=
  mk_Image (im_mode im) sz
    (List.concat (repeat (firstn (bands (im_mode im)) (im_data im)) (snd sz * fst sz))).

Definition stub_st_image (im : Image) (width : nat) : result unit :=
  let '(w, h) := im_size im in
  if Nat.ltb width w && Nat.eqb (h * width / w) 0
  then Raise "ValueError: height and width must be > 0"%string
  else Ok tt.

Definition stub_PIL : PIL :=
  mk_PIL stub_open stub_convert stub_resize stub_st_image.

Definition grey_pixel : Image := mk_Image ModeL (1%nat, 1%nat) [128].

(** A network that answers 0.9 whatever it is given, and one with two
    outputs. *)
Definition net_09 : Net :=
  fun _ => Ok (PArray (mk_ndarray [1%nat; 1%nat] [decimal 9 1])).
Definition net_two : Net :=
  fun _ => Ok (PArray (mk_ndarray [1%nat; 2%nat] [decimal 9 1; decimal 1 1])).

Definition env_of (meta : result Json) (direct weights : result Net) : Env :=
  mk_Env "/srv/app" (fun _ => meta) (fun _ _ => direct) (fun _ _ => weights).

(** Worlds and environments for the examples. *)
Definition env_direct : Env :=
  env_of (Ok (JObj [])) (Ok net_09) (Raise "unused"%string).
Definition env_weights_only : Env :=
  env_of (Ok (JObj [])) (Raise "not a full model"%string) (Ok net_two).
Definition env_no_meta : Env :=
  env_of (Raise "FileNotFoundError"%string) (Ok net_09) (Ok net_09).

(** ** Predicates of the statements *)

(** A list of events without inference. *)
Definition quiet (evs : list Event) : Prop :=
  Forall (fun ev => is_inference ev = false) evs.

(** No model in the cache (or no cache yet) and no inference so far. *)
Definition no_model (w : World) : Prop :=
  (cache w = None \/ exists j, cache w = Some (None, j)) /\ quiet (log w).


(** ** Further definitions from the source *)

(** Line 100: the key of the uploader, [f"uploader_{k}"] for the session's
    [uploader_key] [k]. *)
Definition uploader_widget (k : nat) : string :=
  ("uploader_" ++ NilZero.string_of_uint (Nat.to_uint k))%string.

(** The clicks on "Analyze Another Scan" among the actions. *)
Definition is_restart (a : Action) : bool :=
  match a with
  | ClickRestart => true
  | Rerun _ => false
  end.

Definition restarts (acts : list Action) : nat :=
  List.length (filter is_restart acts).

(** Counting the events of one kind in a log. *)
Definition count_events (f : Event -> bool) (l : list Event) : nat :=
  List.length (filter f l).

Definition is_warning (ev : Event) : bool :=
  match ev with EvWarning => true | _ => false end.

Definition is_success (ev : Event) : bool :=
  match ev with EvSuccess => true | _ => false end.

Definition is_result (ev : Event) : bool :=
  match ev with EvResult _ _ _ => true | _ => false end.

(** A result block in red saying "high risk", one in green saying
    "low risk". *)
Definition is_high_result (ev : Event) : bool :=
  match ev with
  | EvResult c l _ => String.eqb c "risk-high-text" && String.eqb l "high risk"
  | _ => false
  end.

Definition is_low_result (ev : Event) : bool :=
  match ev with
  | EvResult c l _ => String.eqb c "risk-low-text" && String.eqb l "low risk"
  | _ => false
  end.

(** Two environments that differ at most in what the metadata file holds:
    it is readable in both. *)
Definition same_but_meta (E1 E2 : Env) : Prop :=
  BASE_DIR E1 = BASE_DIR E2 /\
  (forall p c, load_model E1 p c = load_model E2 p c) /\
  (forall l p, load_weights E1 l p = load_weights E2 l p) /\
  (exists j, json_load_file E1 (META_PATH E1) = Ok j) /\
  (exists j, json_load_file E2 (META_PATH E2) = Ok j).

(** The model object the accessor returns in [w], if any. *)
Definition model_in (E : Env) (w : World) : option Model :=
  match fst (load_model_assets E w) with
  | Ok (m, _) => m
  | Raise _ => None
  end.

Definition env_other_meta : Env :=
  env_of (Ok (JObj [("threshold"%string, JFloat (decimal 9 1))])) (Ok net_09)
         (Raise "unused"%string).

(** Two worlds that agree on everything but the metadata in the cache. *)
Definition agree_but_meta (w1 w2 : World) : Prop :=
  option_map fst (cache w1) = option_map fst (cache w2) /\
  loads w1 = loads w2 /\ next_addr w1 = next_addr w2 /\
  uploader_key w1 = uploader_key w2 /\ log w1 = log w2.

(** In a log, warnings match the red "high risk" blocks, successes the
    green "low risk" blocks, and every block has one of the two. *)
Definition advisory_consistent (l : list Event) : Prop :=
  count_events is_warning l = count_events is_high_result l /\
  count_events is_success l = count_events is_low_result l /\
  count_events is_result l =
    (count_events is_warning l + count_events is_success l)%nat.

(** The value of the normalised sample [n], and the check that the next
    sample gives a larger one. *)
Definition norm_value (n : nat) : Q :=
  value (fdiv (of_Z (Z.of_nat n)) (decimal 2550 1)).

Definition adjacent_check (n : nat) : bool :=
  negb (Qle_bool (norm_value (S n)) (norm_value n)).

(* ================================================================== *)
(** * Part II. Theorems *)
(* ================================================================== *)

(** ** Binary64 facts *)

Lemma digits2_pos_bounds (m : positive) :
  2 ^ (Zpos (digits2_pos m) - 1) <= Zpos m < 2 ^ Zpos (digits2_pos m).
Proof.
  induction m as [m IH | m IH | ]; cbn [digits2_pos].
  - rewrite Pos2Z.inj_succ.
    replace (Z.succ (Zpos (digits2_pos m)) - 1) with (Z.succ (Zpos (digits2_pos m) - 1)) by lia.
    rewrite !Z.pow_succ_r by lia. lia.
  - rewrite Pos2Z.inj_succ.
    replace (Z.succ (Zpos (digits2_pos m)) - 1) with (Z.succ (Zpos (digits2_pos m) - 1)) by lia.
    rewrite !Z.pow_succ_r by lia. lia.
  - cbn. lia.
Qed.

Lemma canonical_digits (m : positive) (e : Z) :
  canonical_mantissa prec emax m e = true ->
  Zpos (digits2_pos m) <= 53 /\ -1074 <= e /\
  (-1074 < e -> Zpos (digits2_pos m) = 53).
Proof.
  unfold canonical_mantissa, fexp, emin, prec, emax.
  intros H. apply Z.eqb_eq in H. lia.
Qed.

Lemma valid_finite_bounds (s : bool) (m : positive) (e : Z) :
  valid (S754_finite s m e) = true ->
  Zpos m < 2 ^ 53 /\ -1074 <= e <= 971 /\ (-1074 < e -> 2 ^ 52 <= Zpos m).
Proof.
  unfold valid, valid_binary, bounded. intros H.
  apply andb_true_iff in H. destruct H as [Hc He].
  apply Z.leb_le in He. unfold emax, prec in He.
  destruct (canonical_digits m e Hc) as (Hd & Hlo & Hn).
  pose proof (digits2_pos_bounds m) as [Hb1 Hb2].
  split; [|split].
  - eapply Z.lt_le_trans; [exact Hb2|]. apply Z.pow_le_mono_r; lia.
  - lia.
  - intros Hgt. rewrite (Hn Hgt) in Hb1. exact Hb1.
Qed.

(** *** The threshold comparison *)

Lemma half_eq : decimal 5 1 = S754_finite false 4503599627370496 (-53).
Proof. vm_compute. reflexivity. Qed.

Lemma half_lt_value_neg (s : bool) (m k : positive) :
  (1 # 2 < value (S754_finite s m (Zneg k)))%Q <->
  2 ^ Zpos k < 2 * (if s then Zneg m else Zpos m).
Proof.
  unfold value, Qlt. cbv [Qnum Qden]. rewrite Pos2Z.inj_pow.
  destruct s; lia.
Qed.

Lemma half_lt_value_nonneg (s : bool) (m : positive) (e : Z) :
  0 <= e ->
  ((1 # 2 < value (S754_finite s m e))%Q <-> s = false).
Proof.
  intros He.
  assert (Hp : 1 <= 2 ^ e) by (apply (Z.pow_le_mono_r 2 0); lia).
  assert (Hv : value (S754_finite s m e) = inject_Z ((if s then Zneg m else Zpos m) * 2 ^ e)).
  { unfold value. destruct e; try reflexivity. lia. }
  rewrite Hv. unfold Qlt, inject_Z. cbv [Qnum Qden].
  destruct s; split; intros H; try reflexivity; try discriminate; nia.
Qed.

Lemma SFltb_pos (M m : positive) (E e : Z) :
  SFltb (S754_finite false M E) (S754_finite false m e) =
  match E ?= e with
  | Lt => true
  | Gt => false
  | Eq => (M <? m)%positive
  end.
Proof.
  unfold SFltb, SFcompare, Pos.ltb, Pos.compare.
  destruct (E ?= e); try reflexivity.
Qed.

Lemma is_high_spec (p : float) :
  valid p = true -> is_finite p = true ->
  (is_high p = true <-> (1 # 2 < value p)%Q).
Proof.
  intros Hv Hf. unfold is_high, fgt. rewrite half_eq.
  destruct p as [s | s | | s m e]; try discriminate.
  - split; [discriminate | intros H; unfold value, Qlt in H; cbv [Qnum Qden] in H; lia].
  - destruct (valid_finite_bounds s m e Hv) as (Hm & He & Hn).
    clear Hv Hf.
    destruct s.
    + split; [discriminate|].
      destruct e as [ | k | k].
      * rewrite half_lt_value_nonneg by lia. discriminate.
      * rewrite half_lt_value_nonneg by lia. discriminate.
      * rewrite half_lt_value_neg. lia.
    + rewrite SFltb_pos.
      assert (H52 : 2 ^ 52 = 4503599627370496) by reflexivity.
      assert (H53 : 2 ^ 53 = 2 * 4503599627370496) by reflexivity.
      assert (H54 : 2 ^ 54 = 4 * 4503599627370496) by reflexivity.
      destruct (Z.compare_spec (-53) e) as [Heq | Hlt | Hgt].
      * subst e. rewrite half_lt_value_neg, Pos.ltb_lt, H53. lia.
      * split; [intros _ | reflexivity].
        assert (Hge : 2 ^ 52 <= Zpos m) by (apply Hn; lia).
        destruct e as [ | k | k].
        -- apply half_lt_value_nonneg; [lia | reflexivity].
        -- apply half_lt_value_nonneg; [lia | reflexivity].
        -- apply half_lt_value_neg.
           assert (2 ^ Zpos k <= 2 ^ 52) by (apply Z.pow_le_mono_r; lia).
           lia.
      * split; [discriminate | intros H; exfalso].
        destruct e as [ | k | k]; try lia.
        apply half_lt_value_neg in H.
        assert (2 ^ 54 <= 2 ^ Zpos k) by (apply Z.pow_le_mono_r; lia).
        lia.
Qed.

(** *** [prediction * 100] stays finite *)

Lemma iter_pos_inv {A} (P : A -> Prop) (f : A -> A) :
  (forall x, P x -> P (f x)) ->
  forall n x, P x -> P (iter_pos f n x).
Proof.
  intros Hf. induction n as [n IH | n IH | ]; intros x Hx; cbn [iter_pos]; auto.
Qed.

Lemma shr_1_bound (M : Z) (mrs : shr_record) :
  0 <= shr_m mrs <= M -> 0 <= shr_m (shr_1 mrs) <= M.
Proof.
  destruct mrs as [m r s]. cbn [shr_m].
  destruct m as [ | [q | q | ] | [q | q | ]]; cbn [shr_1 shr_m]; lia.
Qed.

Lemma shr_fexp_bound (m e : Z) (l : location) :
  0 <= m ->
  0 <= shr_m (fst (shr_fexp prec emax m e l)) <= m /\
  snd (shr_fexp prec emax m e l) = Z.max e (fexp prec emax (Zdigits2 m + e)).
Proof.
  intros Hm. unfold shr_fexp, shr.
  assert (H0 : 0 <= shr_m (shr_record_of_loc m l) <= m).
  { destruct l as [ | []]; cbn; lia. }
  destruct (fexp prec emax (Zdigits2 m + e) - e) as [ | n | n] eqn:Hn; cbn [fst snd].
  - split; [exact H0 | lia].
  - split; [| lia].
    apply (iter_pos_inv (fun mrs => 0 <= shr_m mrs <= m)); [apply shr_1_bound | exact H0].
  - split; [exact H0 | lia].
Qed.

Lemma round_nearest_even_bound (m : Z) (l : location) :
  0 <= m -> 0 <= round_nearest_even m l <= m + 1.
Proof.
  intros Hm. destruct l as [ | []]; cbn [round_nearest_even]; try lia.
  destruct (Z.even m); lia.
Qed.

Lemma Zdigits2_le (m k : Z) :
  0 <= m < 2 ^ k -> 0 <= k -> 0 <= Zdigits2 m <= k.
Proof.
  intros [H0 Hk] Hk0. destruct m as [ | q | q]; cbn [Zdigits2]; try lia.
  pose proof (digits2_pos_bounds q) as [Hlo _].
  split; [lia|].
  destruct (Z_lt_le_dec k (Zpos (digits2_pos q))) as [Hlt | Hle]; [exfalso | exact Hle].
  assert (2 ^ k <= 2 ^ (Zpos (digits2_pos q) - 1)) by (apply Z.pow_le_mono_r; lia).
  lia.
Qed.

(** Rounding a mantissa below [2^106] at an exponent of at most [-46]
    stays in range. *)
Lemma binary_round_aux_in_range (s : bool) (m e : Z) (l : location) :
  0 <= m < 2 ^ 106 -> e <= -46 ->
  match binary_round_aux prec emax s m e l with
  | S754_zero s' => s' = s
  | S754_finite s' _ _ => s' = s
  | _ => False
  end.
Proof.
  intros Hm He. unfold binary_round_aux.
  pose proof (shr_fexp_bound m e l (proj1 Hm)) as [Hb1 He1].
  destruct (shr_fexp prec emax m e l) as [mrs1 e1]. cbn [fst snd] in Hb1, He1.
  set (m1 := round_nearest_even (shr_m mrs1) (loc_of_shr_record mrs1)).
  assert (Hm1 : 0 <= m1 <= m + 1) by
    (pose proof (round_nearest_even_bound (shr_m mrs1) (loc_of_shr_record mrs1) (proj1 Hb1)); unfold m1; lia).
  pose proof (shr_fexp_bound m1 e1 loc_Exact (proj1 Hm1)) as [Hb2 He2].
  destruct (shr_fexp prec emax m1 e1 loc_Exact) as [mrs2 e2]. cbn [fst snd] in Hb2, He2.
  assert (Hd : 0 <= Zdigits2 m <= 106) by (apply Zdigits2_le; lia).
  assert (Hd1 : 0 <= Zdigits2 m1 <= 107).
  { apply Zdigits2_le; [|lia]. split; [lia|].
    assert (2 ^ 107 = 2 * 2 ^ 106) by reflexivity. lia. }
  unfold fexp, emin, prec, emax in He1, He2.
  destruct (shr_m mrs2) as [ | q | q]; [reflexivity | | lia].
  replace (e2 <=? emax - prec) with true; [reflexivity|].
  symmetry. apply Z.leb_le. unfold emax, prec. lia.
Qed.

Lemma hundred_eq : of_Z 100 = S754_finite false 7036874417766400 (-46).
Proof. vm_compute. reflexivity. Qed.

(** A probability is a zero or a positive float whose exponent is not
    positive and whose mantissa has at most 53 bits. *)
Lemma probability_cases (p : float) :
  is_probability p ->
  (exists s, p = S754_zero s) \/
  (exists m e, p = S754_finite false m e /\ Zpos m < 2 ^ 53 /\ e <= 0).
Proof.
  intros (Hv & Hf & H0 & H1).
  destruct p as [s | s | | s m e]; try discriminate.
  - left. exists s. reflexivity.
  - right. destruct (valid_finite_bounds s m e Hv) as (Hm & He & _).
    destruct s.
    + exfalso. unfold value, Qle, inject_Z in H0.
      destruct e as [ | k | k]; cbv [Qnum Qden] in H0; lia.
    + exists m, e. split; [reflexivity | split; [exact Hm|]].
      destruct e as [ | k | k]; try lia.
      exfalso. unfold value, Qle, inject_Z in H1. cbv [Qnum Qden] in H1.
      assert (2 <= 2 ^ Zpos k) by (apply (Z.pow_le_mono_r 2 1); lia). nia.
Qed.

(** [prediction * 100] does not overflow; it is negative only as the zero
    that [-0.0] gives. *)
Lemma percent_operand_finite (p : float) :
  is_probability p ->
  match fmul p (of_Z 100) with
  | S754_zero s => s = false \/ p = S754_zero true
  | S754_finite s _ _ => s = false
  | _ => False
  end.
Proof.
  intros Hp. rewrite hundred_eq.
  destruct (probability_cases p Hp) as [[s ->] | (m & e & -> & Hm & He)].
  - unfold fmul, SFmul. destruct s; cbn [xorb]; [right | left]; reflexivity.
  - unfold fmul, SFmul. cbn [xorb].
    assert (Hr : 0 <= Zpos (m * 7036874417766400) < 2 ^ 106).
    { rewrite Pos2Z.inj_mul. split; [lia|].
      assert (H106 : 2 ^ 106 = 2 ^ 53 * 2 ^ 53) by reflexivity.
      assert (Zpos 7036874417766400 < 2 ^ 53) by reflexivity.
      rewrite H106. nia. }
    pose proof (binary_round_aux_in_range false _ (e + -46) loc_Exact Hr ltac:(lia)) as H.
    destruct (binary_round_aux prec emax false (Zpos (m * 7036874417766400)) (e + -46) loc_Exact);
      try assumption.
    left. exact H.
Qed.

(** ** Rounding to tenths *)

Lemma round_half_even_spec (q : Q) :
  (0 <= q)%Q ->
  0 <= round_half_even q /\ (Qabs (q - inject_Z (round_half_even q)) <= 1 # 2)%Q.
Proof.
  intros Hq. unfold round_half_even.
  pose proof (Qfloor_le q) as Hlo.
  pose proof (Qlt_floor q) as Hhi.
  assert (Hf0 : 0 <= Qfloor q).
  { change 0 with (Qfloor 0). apply Qfloor_resp_le. exact Hq. }
  rewrite inject_Z_plus in Hhi. change (inject_Z 1) with 1%Q in Hhi.
  destruct (Qcompare_spec (q - inject_Z (Qfloor q)) (1 # 2)) as [He | Hl | Hg].
  - destruct (Z.even (Qfloor q)).
    + split; [lia|]. apply Qabs_Qle_condition. split; lra.
    + split; [lia|]. rewrite inject_Z_plus. change (inject_Z 1) with 1%Q.
      apply Qabs_Qle_condition. split; lra.
  - split; [lia|]. apply Qabs_Qle_condition. split; lra.
  - split; [lia|]. rewrite inject_Z_plus. change (inject_Z 1) with 1%Q.
    apply Qabs_Qle_condition. split; lra.
Qed.

Lemma value_nonneg (m : positive) (e : Z) :
  (0 <= value (S754_finite false m e))%Q.
Proof.
  unfold value, Qle, inject_Z. destruct e as [ | k | k]; cbv [Qnum Qden]; try lia.
Qed.

Lemma label_of_is_high (p : float) :
  label p = if is_high p then "high risk"%string else "low risk"%string.
Proof. reflexivity. Qed.

(** ** The risk classifier *)

(** C1.  For every probability [p] (a valid finite float with value in
    [0, 1]) line 112 computes [is_high = (p > 0.5)] with a strict
    inequality on the exact values: a value above one half gives
    [is_high = True] and the label "high risk"; a value of one half or less,
    one half itself included, gives [is_high = False] and "low risk". *)
Theorem risk_threshold_strict (p : float) :
  is_probability p ->
  ((1 # 2 < value p)%Q -> is_high p = true /\ label p = "high risk"%string) /\
  ((value p <= 1 # 2)%Q -> is_high p = false /\ label p = "low risk"%string).
Proof.
  intros (Hv & Hf & _ & _).
  pose proof (is_high_spec p Hv Hf) as Hs.
  unfold label. split.
  - intros Hlt. apply Hs in Hlt. rewrite Hlt. split; reflexivity.
  - intros Hle. destruct (is_high p) eqn:Hh.
    + exfalso. apply (Qle_not_lt _ _ Hle). apply Hs. reflexivity.
    + split; reflexivity.
Qed.

Lemma half_is_probability : is_probability (decimal 5 1).
Proof.
  unfold is_probability.
  repeat split; try (vm_compute; reflexivity); vm_compute; discriminate.
Qed.

(** The boundary itself: 0.5 is a probability, is exactly one half, and is
    low risk. *)
Lemma risk_threshold_boundary :
  is_probability (decimal 5 1) /\
  (value (decimal 5 1) == 1 # 2)%Q /\
  is_high (decimal 5 1) = false /\ label (decimal 5 1) = "low risk"%string.
Proof.
  split; [exact half_is_probability|].
  split; [vm_compute; reflexivity|].
  apply (proj2 (risk_threshold_strict (decimal 5 1) half_is_probability)).
  vm_compute. discriminate.
Defined.

(** The literal 0.5000001 is already high risk. *)
Lemma risk_threshold_just_above :
  is_high (decimal 5000001 7) = true /\
  label (decimal 5000001 7) = "high risk"%string.
Proof. split; vm_compute; reflexivity. Qed.

(** C6.  For every probability [p] the displayed percentage is the float
    [p * 100] printed with exactly one fractional digit: the text is the
    decimal numeral of [N] tenths (integer part, point, one digit) for an
    integer [N >= 0] within half a tenth of the exact value of [p * 100]
    (the text carries a minus sign only for [p = -0.0]).  In particular
    0.8854 is shown as "88.5", 0.0 as "0.0" and 1.0 as "100.0". *)
Theorem percent_one_decimal :
  (forall p, is_probability p ->
     exists N, 0 <= N /\
       percent p =
         ((match p with S754_zero true => "-" | _ => "" end) ++ tenths_string N)%string /\
       (Qabs (value (fmul p (of_Z 100)) * 10 - inject_Z N) <= 1 # 2)%Q) /\
  percent (decimal 8854 4) = "88.5"%string /\
  percent (decimal 0 1) = "0.0"%string /\
  percent (decimal 10 1) = "100.0"%string.
Proof.
  split; [| repeat split; vm_compute; reflexivity].
  intros p Hp. pose proof (percent_operand_finite p Hp) as Hx.
  unfold percent.
  destruct (fmul p (of_Z 100)) as [s | s | | s m e] eqn:Hmul; try contradiction.
  - exists 0. split; [lia|]. split.
    + rewrite hundred_eq in Hmul.
      destruct (probability_cases p Hp) as [[s' ->] | (m & e & -> & _)].
      * destruct s'; injection Hmul as <-; reflexivity.
      * destruct Hx as [-> | Hx]; [reflexivity | discriminate Hx].
    + vm_compute. discriminate.
  - subst s. cbn [format_1f].
    pose proof (value_nonneg m e) as H0.
    set (x := S754_finite false m e) in *.
    assert (Hq : (0 <= Qabs (value x) * 10)%Q).
    { pose proof (Qabs_nonneg (value x)). nra. }
    destruct (round_half_even_spec _ Hq) as [HN Hr].
    exists (round_half_even (Qabs (value x) * 10)).
    split; [exact HN|]. split.
    + destruct (probability_cases p Hp) as [[s' ->] | (m' & e' & -> & _)]; [|reflexivity].
      rewrite hundred_eq in Hmul. destruct s'; discriminate.
    + assert (He : (Qabs (value x) == value x)%Q) by (apply Qabs_pos; exact H0).
      apply Qabs_Qle_condition in Hr. apply Qabs_Qle_condition.
      destruct Hr as [Hr1 Hr2]. split; lra.
Qed.

Lemma percent_one_decimal_example :
  is_probability (decimal 5 1) /\
  exists N, 0 <= N /\
    percent (decimal 5 1) = tenths_string N /\
    (Qabs (value (fmul (decimal 5 1) (of_Z 100)) * 10 - inject_Z N) <= 1 # 2)%Q.
Proof.
  split; [exact half_is_probability|].
  destruct (proj1 percent_one_decimal (decimal 5 1) half_is_probability)
    as (N & HN & Hs & Hq).
  exists N. split; [exact HN | split; [|exact Hq]].
  rewrite Hs, half_eq. reflexivity.
Defined.

(** ** Preprocessing *)

Lemma unit_interval_all :
  forallb unit_interval_check (map Z.of_nat (seq 0 256)) = true.
Proof. vm_compute. reflexivity. Qed.

(** Every 8-bit sample divided by 255.0 is a float in [0, 1]. *)
Lemma sample_div_255 (v : Z) :
  0 <= v <= 255 -> is_probability (fdiv (of_Z v) (decimal 2550 1)).
Proof.
  intros Hv.
  pose proof unit_interval_all as H. rewrite forallb_forall in H.
  specialize (H v).
  assert (Hin : In v (map Z.of_nat (seq 0 256))).
  { apply in_map_iff. exists (Z.to_nat v). split; [lia|]. apply in_seq. lia. }
  apply H in Hin. unfold unit_interval_check in Hin.
  repeat (apply andb_true_iff in Hin; destruct Hin as [Hin ?]).
  unfold is_probability. repeat split; try assumption; apply Qle_bool_iff; assumption.
Qed.

Lemma size_of_4 (a b c d : nat) :
  size_of [a; b; c; d] = (a * (b * c * d))%nat.
Proof. unfold size_of, fold_right. lia. Qed.

Lemma to_tensor_rgb (r : Image) :
  wf_image r -> im_mode r = ModeRGB ->
  shape (to_tensor r) = [1%nat; snd (im_size r); fst (im_size r); 3%nat] /\
  List.length (data (to_tensor r)) = size_of (shape (to_tensor r)) /\
  Forall is_probability (data (to_tensor r)).
Proof.
  intros (Hw & Hh & Hlen & Hs) Hm.
  unfold to_tensor, expand_dims, div_255, np_array.
  destruct (im_size r) as [w h] eqn:Hsz. rewrite Hm in *.
  cbn [shape data bands Nat.eqb fst snd] in *.
  split; [reflexivity | split].
  - rewrite length_map, Hlen, size_of_4. lia.
  - apply Forall_map. eapply Forall_impl; [|exact Hs].
    intros v Hv. apply sample_div_255. exact Hv.
Qed.

(** The tensor made of a decoded image, under PIL's contract. *)
Lemma preprocess_rgb_tensor (P : PIL) (im : Image) :
  PIL_contract P -> wf_image im ->
  shape (preprocess P (convert P im ModeRGB)) = [1%nat; 224%nat; 224%nat; 3%nat] /\
  List.length (data (preprocess P (convert P im ModeRGB))) =
    size_of (shape (preprocess P (convert P im ModeRGB))) /\
  Forall is_probability (data (preprocess P (convert P im ModeRGB))).
Proof.
  intros (_ & Hc & Hr) Him.
  destruct (Hc im Him) as (Hcw & Hcm & _).
  destruct (Hr (convert P im ModeRGB) IMAGE_RES Hcw) as (Hrw & Hrm & Hrs);
    [unfold IMAGE_RES; cbn; lia | unfold IMAGE_RES; cbn; lia |].
  rewrite Hcm in Hrm.
  destruct (to_tensor_rgb _ Hrw Hrm) as (Hsh & Hlen & Hall).
  unfold preprocess. rewrite Hrs in Hsh.
  split; [exact Hsh | split; assumption].
Qed.

(** *** The example collaborators honour the contract *)

Lemma length_concat_repeat {A} (l : list A) (n : nat) :
  List.length (List.concat (repeat l n)) = (n * List.length l)%nat.
Proof.
  induction n as [ | n IH]; cbn [repeat List.concat]; [reflexivity|].
  rewrite length_app, IH. lia.
Qed.

Lemma Forall_concat_repeat {A} (Q : A -> Prop) (l : list A) (n : nat) :
  Forall Q l -> Forall Q (List.concat (repeat l n)).
Proof.
  intros Hl. induction n as [ | n IH]; cbn [repeat List.concat]; [constructor|].
  apply Forall_app. split; assumption.
Qed.

Lemma Forall_repeat {A} (Q : A -> Prop) (x : A) (n : nat) :
  Q x -> Forall Q (repeat x n).
Proof.
  intros Hx. induction n as [ | n IH]; cbn [repeat]; constructor; assumption.
Qed.

Lemma Forall_firstn_keep {A} (Q : A -> Prop) (n : nat) (l : list A) :
  Forall Q l -> Forall Q (firstn n l).
Proof.
  intros Hl. revert n. induction Hl as [ | x l Hx Hl IH]; intros [ | n]; cbn [firstn];
    constructor; auto.
Qed.

Lemma stub_PIL_contract : PIL_contract stub_PIL.
Proof.
  unfold PIL_contract, stub_PIL. cbn [Image_open convert resize].
  split; [|split].
  - intros b im H. unfold stub_open in H.
    destruct b as [ | x [ | y b']]; try discriminate.
    injection H as <-. unfold wf_image. cbn [im_size im_mode im_data fst snd bands].
    repeat split; try lia.
    constructor; [|constructor]. cbn [sample_ok].
    pose proof (Byte.to_N_bounded x). lia.
  - intros im (Hw & Hh & _ & _). unfold stub_convert, wf_image.
    cbn [im_size im_mode im_data]. repeat split; try assumption.
    + apply repeat_length.
    + apply Forall_repeat. cbn [sample_ok]. unfold clamp8. lia.
  - intros im sz (Hw & Hh & Hlen & Hs) Hsw Hsh. unfold stub_resize, wf_image.
    cbn [im_size im_mode im_data]. repeat split; try assumption.
    + rewrite length_concat_repeat, length_firstn, Hlen.
      rewrite Nat.min_l; [reflexivity|].
      transitivity (1 * bands (im_mode im))%nat; [lia|].
      apply Nat.mul_le_mono_r. nia.
    + apply Forall_concat_repeat. apply Forall_firstn_keep. exact Hs.
Qed.

Lemma grey_pixel_wf : wf_image grey_pixel.
Proof.
  unfold wf_image, grey_pixel. cbn [im_size im_mode im_data fst snd bands sample_ok].
  repeat split; try lia. constructor; [cbn; lia | constructor].
Qed.

(** ** The world *)

Lemma add_log_add_log (w : World) (a b : list Event) :
  add_log (add_log w a) b = add_log w (a ++ b).
Proof.
  unfold add_log. cbn [cache loads next_addr uploader_key log].
  rewrite <- app_assoc. reflexivity.
Qed.

Lemma add_log_nil (w : World) : add_log w [] = w.
Proof. destruct w. unfold add_log. cbn. rewrite app_nil_r. reflexivity. Qed.

Lemma events_since_app (w w' : World) (evs : list Event) :
  log w' = log w ++ evs -> events_since w w' = evs.
Proof.
  intros H. unfold events_since. rewrite H, skipn_app, skipn_all, Nat.sub_diag. reflexivity.
Qed.

Lemma events_since_add_log (w : World) (evs : list Event) :
  events_since w (add_log w evs) = evs.
Proof. apply events_since_app. reflexivity. Qed.

(** ** The loader *)

(** The outcomes of the three calls the loader can make. *)
Ltac loader_cases E :=
  destruct (json_load_file E (META_PATH E)) as [?meta | ?e];
    [destruct (load_model E (MODEL_PATH E) false) as [?net | ?e];
       [| destruct (load_weights E fallback_layers (MODEL_PATH E)) as [?net | ?e]] |].

(** The routine in closed form, by those outcomes. *)
Lemma load_model_assets_body_eq (E : Env) (w : World) :
  load_model_assets_body E w =
  let started a evs :=
    mk_World (cache w) (S (loads w)) a (uploader_key w) (log w ++ evs) in
  match json_load_file E (META_PATH E) with
  | Raise e =>
      (Ok (None, None),
       started (next_addr w)
         [EvOpen (META_PATH E);
          EvError ("Critical error loading assets: " ++ e)])
  | Ok meta =>
      match load_model E (MODEL_PATH E) false with
      | Ok net =>
          (Ok (Some (mk_Model (next_addr w) net), py_of_json meta),
           started (S (next_addr w))
             [EvOpen (META_PATH E); EvLoadModel (MODEL_PATH E) false])
      | Raise _ =>
          match load_weights E fallback_layers (MODEL_PATH E) with
          | Ok net =>
              (Ok (Some (mk_Model (next_addr w) net), py_of_json meta),
               started (S (next_addr w))
                 [EvOpen (META_PATH E); EvLoadModel (MODEL_PATH E) false;
                  EvSequential fallback_layers; EvLoadWeights (MODEL_PATH E)])
          | Raise e =>
              (Ok (None, None),
               started (S (next_addr w))
                 [EvOpen (META_PATH E); EvLoadModel (MODEL_PATH E) false;
                  EvSequential fallback_layers; EvLoadWeights (MODEL_PATH E);
                  EvError ("Critical error loading assets: " ++ e)])
          end
      end
  end.
Proof.
  cbv [load_model_assets_body load_or_rebuild try_except bind call emit lift
       tick_load alloc ret add_log cache loads next_addr uploader_key log].
  loader_cases E;
    rewrite <- ?app_assoc; reflexivity.
Qed.

(** The load routine always returns; it adds one to the count of loads,
    leaves the cache and the session alone and logs no inference event. *)
Lemma load_model_assets_body_returns (E : Env) (w : World) :
  exists v a evs,
    load_model_assets_body E w =
      (Ok v, mk_World (cache w) (S (loads w)) a (uploader_key w) (log w ++ evs)) /\
    quiet evs /\ (load_fails E -> v = (None, None)).
Proof.
  rewrite load_model_assets_body_eq. cbv zeta. unfold load_fails, quiet.
  loader_cases E;
    (eexists; eexists; eexists; split; [reflexivity | split;
      [repeat constructor
      | try reflexivity;
        intros [[e' He'] | [[e' He'] [e'' He'']]]; discriminate ]]).
Qed.

Lemma load_model_assets_hit (E : Env) (w : World) (v : Assets) :
  cache w = Some v -> load_model_assets E w = (Ok v, w).
Proof.
  intros H. unfold load_model_assets, cache_resource. rewrite H. reflexivity.
Qed.

Lemma load_model_assets_miss (E : Env) (w : World) :
  cache w = None ->
  exists v a evs,
    load_model_assets E w =
      (Ok v, mk_World (Some v) (S (loads w)) a (uploader_key w) (log w ++ evs)) /\
    quiet evs /\ (load_fails E -> v = (None, None)).
Proof.
  intros H. unfold load_model_assets, cache_resource. rewrite H.
  destruct (load_model_assets_body_returns E w) as (v & a & evs & -> & Hq & Hf).
  exists v, a, evs. split; [reflexivity | split; assumption].
Qed.

(** Whatever the cache holds, the accessor returns and leaves the returned
    object in the cache. *)
Lemma load_model_assets_returns (E : Env) (w : World) :
  exists v wa evs,
    load_model_assets E w = (Ok v, wa) /\ cache wa = Some v /\
    uploader_key wa = uploader_key w /\ log wa = log w ++ evs /\ quiet evs /\
    match cache w with
    | Some v' => v = v' /\ wa = w
    | None => loads wa = S (loads w) /\ (load_fails E -> v = (None, None))
    end.
Proof.
  destruct (cache w) as [v' | ] eqn:Hc.
  - exists v', w, []. rewrite (load_model_assets_hit E w v' Hc), app_nil_r.
    repeat split; try assumption. constructor.
  - destruct (load_model_assets_miss E w Hc) as (v & a & evs & -> & Hq & Hf).
    exists v. eexists. exists evs. repeat split; assumption.
Qed.

(** ** One run of the script *)

Lemma classify_eq (P : PIL) (model : Model) (file : list Byte.byte) (w : World) :
  classify P model file w =
  (fst (classify_outcome P model file), add_log w (snd (classify_outcome P model file))).
Proof.
  unfold classify_outcome.
  cbv [classify open_rgb bind call emit lift ret].
  destruct (Image_open P file) as [img | e]; [|reflexivity].
  destruct (st_image P (convert P img ModeRGB) 220) as [[] | e];
    [| cbn [fst snd]; rewrite !add_log_add_log; reflexivity].
  cbv zeta.
  destruct (m_net model (preprocess P (convert P img ModeRGB))) as [out | e];
    [| cbn [fst snd]; rewrite !add_log_add_log; reflexivity].
  destruct (first_scalar out) as [x | e];
    [| cbn [fst snd]; rewrite !add_log_add_log; reflexivity].
  destruct (is_high x); cbn [fst snd]; rewrite !add_log_add_log; reflexivity.
Qed.

(** The world after lines 85-86. *)
Lemma init_uploader_key_eq (w : World) :
  init_uploader_key w =
  (Ok tt, mk_World (cache w) (loads w) (next_addr w)
            (Some (match uploader_key w with Some k => k | None => 0%nat end))
            (log w)).
Proof.
  unfold init_uploader_key. destruct w as [c l n [k | ] lg]; reflexivity.
Qed.

Lemma main_eq (E : Env) (P : PIL) (upload : option (list Byte.byte))
      (w wa : World) (v : Assets) :
  load_model_assets E w = (Ok v, wa) ->
  main E P upload w =
  match upload, fst v with
  | Some file, Some model => classify P model file (snd (init_uploader_key wa))
  | _, _ => (Ok tt, snd (init_uploader_key wa))
  end.
Proof.
  intros H. unfold main, bind at 1. rewrite H. unfold bind.
  rewrite init_uploader_key_eq. cbn [snd].
  destruct upload as [file | ]; [destruct (fst v) as [model | ] |]; reflexivity.
Qed.

(** A run changes the cache and the count of loads only through the
    accessor, and adds to the log. *)
Lemma main_frame (E : Env) (P : PIL) (upload : option (list Byte.byte)) (w : World) :
  exists v wa evs,
    load_model_assets E w = (Ok v, wa) /\
    cache (snd (main E P upload w)) = Some v /\
    loads (snd (main E P upload w)) = loads wa /\
    log (snd (main E P upload w)) = log wa ++ evs /\
    evs = match upload, fst v with
          | Some file, Some model => snd (classify_outcome P model file)
          | _, _ => []
          end.
Proof.
  destruct (load_model_assets_returns E w) as (v & wa & evs0 & Hl & Hc & _).
  exists v, wa.
  exists (match upload, fst v with
          | Some file, Some model => snd (classify_outcome P model file)
          | _, _ => []
          end).
  split; [exact Hl|].
  rewrite (main_eq E P upload w wa v Hl), init_uploader_key_eq. cbn [snd].
  destruct upload as [file | ]; [destruct (fst v) as [model | ] |];
    try rewrite classify_eq; cbn [snd cache loads log add_log];
    rewrite ?app_nil_r; repeat split; assumption.
Qed.

(** C3.  When the metadata has been read, the loader first calls
    [load_model(MODEL_PATH, compile=False)]; if that call returns, nothing
    else is tried and its model is the result; if and only if it raises, the
    loader builds the fixed architecture (MobileNetV2 with [weights=None] and
    [include_top=False], global average pooling, dropout, one dense unit
    with a sigmoid) and calls [load_weights] on the same path. *)
Theorem load_direct_then_fallback (E : Env) (w : World) (meta : Json) :
  json_load_file E (META_PATH E) = Ok meta ->
  fallback_layers =
    [ MobileNetV2 None false [224%nat; 224%nat; 3%nat];
      GlobalAveragePooling2D; Dropout (decimal 3 1); Dense 1 "sigmoid" ] /\
  exists evs,
    events_since w (snd (load_model_assets_body E w)) =
      EvOpen (META_PATH E) :: EvLoadModel (MODEL_PATH E) false :: evs /\
    match load_model E (MODEL_PATH E) false with
    | Ok net =>
        evs = [] /\
        fst (load_model_assets_body E w) =
          Ok (Some (mk_Model (next_addr w) net), py_of_json meta)
    | Raise _ =>
        exists rest,
          evs = EvSequential fallback_layers :: EvLoadWeights (MODEL_PATH E) :: rest /\
          match load_weights E fallback_layers (MODEL_PATH E) with
          | Ok net =>
              rest = [] /\
              fst (load_model_assets_body E w) =
                Ok (Some (mk_Model (next_addr w) net), py_of_json meta)
          | Raise e =>
              rest = [EvError ("Critical error loading assets: " ++ e)] /\
              fst (load_model_assets_body E w) = Ok (None, None)
          end
    end.
Proof.
  intros Hmeta. split; [reflexivity|].
  rewrite load_model_assets_body_eq, Hmeta. cbv zeta.
  destruct (load_model E (MODEL_PATH E) false) as [net | e1].
  - exists []. cbn [fst snd]. split; [apply events_since_app; reflexivity|].
    split; reflexivity.
  - destruct (load_weights E fallback_layers (MODEL_PATH E)) as [net | e2].
    + eexists. cbn [fst snd]. split; [apply events_since_app; reflexivity|].
      exists []. repeat split.
    + eexists. cbn [fst snd]. split; [apply events_since_app; reflexivity|].
      eexists. repeat split.
Qed.

Lemma load_direct_then_fallback_example :
  json_load_file env_weights_only (META_PATH env_weights_only) = Ok (JObj []) /\
  events_since init_world (snd (load_model_assets_body env_weights_only init_world)) =
    [ EvOpen (META_PATH env_weights_only);
      EvLoadModel (MODEL_PATH env_weights_only) false;
      EvSequential fallback_layers;
      EvLoadWeights (MODEL_PATH env_weights_only) ].
Proof.
  split; [reflexivity|].
  destruct (load_direct_then_fallback env_weights_only init_world (JObj []) eq_refl)
    as (_ & evs & Hev & Hcase).
  cbn [env_weights_only env_of load_model load_weights] in Hcase.
  destruct Hcase as (rest & -> & -> & _).
  exact Hev.
Defined.

(** ** The resource cache *)

Lemma step_frame (E : Env) (P : PIL) (w : World) (a : Action) :
  match cache w with
  | Some v => cache (step E P w a) = Some v /\ loads (step E P w a) = loads w
  | None =>
      (cache (step E P w a) = None /\ loads (step E P w a) = loads w) \/
      ((exists v, cache (step E P w a) = Some v) /\ loads (step E P w a) = S (loads w))
  end.
Proof.
  assert (Hmain : forall upload w0,
    match cache w0 with
    | Some v => cache (snd (main E P upload w0)) = Some v /\
                loads (snd (main E P upload w0)) = loads w0
    | None => (exists v, cache (snd (main E P upload w0)) = Some v) /\
              loads (snd (main E P upload w0)) = S (loads w0)
    end).
  { intros upload w0.
    destruct (main_frame E P upload w0) as (v & wa & evs & Hl & Hc & Hn & _).
    destruct (load_model_assets_returns E w0) as (v' & wa' & evs' & Hl' & _ & _ & _ & _ & Hcase).
    rewrite Hl in Hl'. injection Hl' as <- <-.
    destruct (cache w0) as [v0 | ].
    - destruct Hcase as [-> ->]. split; assumption.
    - destruct Hcase as [Hs _]. split; [exists v; exact Hc | congruence]. }
  destruct a as [upload | ]; cbn [step].
  - specialize (Hmain upload w). destruct (cache w); [exact Hmain | right; exact Hmain].
  - unfold bind, handle_restart.
    destruct (uploader_key w) as [k | ] eqn:Hk.
    + specialize (Hmain None (mk_World (cache w) (loads w) (next_addr w) (Some (S k)) (log w))).
      cbn [cache loads] in Hmain.
      destruct (cache w); [exact Hmain | right; exact Hmain].
    + cbn [snd]. destruct (cache w); [split; reflexivity | left; split; reflexivity].
Qed.

Lemma run_session_frame (E : Env) (P : PIL) (acts : list Action) (w : World) :
  match cache w with
  | Some v => cache (run_session E P acts w) = Some v /\
              loads (run_session E P acts w) = loads w
  | None => (loads (run_session E P acts w) <= S (loads w))%nat
  end.
Proof.
  revert w. induction acts as [ | a acts IH]; intros w; cbn [run_session fold_left].
  - destruct (cache w); [split; reflexivity | lia].
  - fold (run_session E P acts (step E P w a)).
    pose proof (step_frame E P w a) as Hs. specialize (IH (step E P w a)).
    destruct (cache w) as [v | ].
    + destruct Hs as [Hc Hn]. rewrite Hc in IH. rewrite <- Hn. exact IH.
    + destruct Hs as [[Hc Hn] | [[v Hc] Hn]]; rewrite Hc in IH.
      * rewrite <- Hn. exact IH.
      * destruct IH as [_ IH]. rewrite IH, Hn. lia.
Qed.

(** C5.  Two consecutive calls of the accessor return the same object (the
    same address, not an equal copy) and run the load routine at most once;
    over any sequence of runs from a fresh process the routine runs at most
    once; and once the cache is filled no run changes it or runs the routine
    again. *)
Theorem load_at_most_once (E : Env) :
  (forall w, exists v w1,
      load_model_assets E w = (Ok v, w1) /\
      load_model_assets E w1 = (Ok v, w1) /\
      (loads w1 <= S (loads w))%nat) /\
  (forall P acts, (loads (run_session E P acts init_world) <= 1)%nat) /\
  (forall P acts w v, cache w = Some v ->
      cache (run_session E P acts w) = Some v /\
      loads (run_session E P acts w) = loads w).
Proof.
  split; [|split].
  - intros w.
    destruct (load_model_assets_returns E w) as (v & wa & evs & Hl & Hc & _ & _ & _ & Hcase).
    exists v, wa. split; [exact Hl|]. split; [apply load_model_assets_hit; exact Hc|].
    destruct (cache w); [destruct Hcase as [_ ->]; lia | destruct Hcase as [-> _]; lia].
  - intros P acts. exact (run_session_frame E P acts init_world).
  - intros P acts w v Hc. pose proof (run_session_frame E P acts w) as H.
    rewrite Hc in H. exact H.
Qed.

(** Without the cache the routine would build a new object at each call. *)
Lemma uncached_loads_differ (E : Env) (w : World) (m1 m2 : Model) (j1 j2 : option Json) :
  fst (load_model_assets_body E w) = Ok (Some m1, j1) ->
  fst (load_model_assets_body E (snd (load_model_assets_body E w))) = Ok (Some m2, j2) ->
  m_addr m1 <> m_addr m2.
Proof.
  rewrite !load_model_assets_body_eq. cbv zeta.
  destruct (json_load_file E (META_PATH E)) as [meta | e]; [|discriminate].
  destruct (load_model E (MODEL_PATH E) false) as [net | e1];
    [| destruct (load_weights E fallback_layers (MODEL_PATH E)) as [net | e2]; [|discriminate]];
    cbn [fst snd next_addr]; intros H1 H2;
    injection H1 as <- _; injection H2 as <- _; cbn [m_addr]; lia.
Qed.

(** ** What a run logs *)

Lemma predict_inputs_app (a b : list Event) :
  predict_inputs (a ++ b) = predict_inputs a ++ predict_inputs b.
Proof. unfold predict_inputs. apply flat_map_app. Qed.

Lemma predict_inputs_quiet (evs : list Event) :
  quiet evs -> predict_inputs evs = [].
Proof.
  unfold quiet. induction 1 as [ | ev evs Hev _ IH]; [reflexivity|].
  change (predict_inputs (ev :: evs)) with
    ((match ev with EvPredict _ x => [x] | _ => [] end) ++ predict_inputs evs).
  rewrite IH. destruct ev; try reflexivity; discriminate.
Qed.

(** The tensors a run of [classify] hands to the network: the preprocessed
    image when the file decodes and [st.image] has drawn it, none
    otherwise. *)
Lemma classify_outcome_inputs (P : PIL) (model : Model) (file : list Byte.byte) :
  predict_inputs (snd (classify_outcome P model file)) =
  match Image_open P file with
  | Ok img =>
      match st_image P (convert P img ModeRGB) 220 with
      | Ok _ => [preprocess P (convert P img ModeRGB)]
      | Raise _ => []
      end
  | Raise _ => []
  end.
Proof.
  unfold classify_outcome.
  destruct (Image_open P file) as [img | e]; [|reflexivity].
  destruct (st_image P (convert P img ModeRGB) 220) as [[] | e]; [|reflexivity].
  cbv zeta.
  destruct (m_net model (preprocess P (convert P img ModeRGB))) as [out | e];
    [|reflexivity].
  destruct (first_scalar out) as [x | e]; [|reflexivity].
  cbn [snd]. rewrite predict_inputs_app.
  destruct (is_high x); reflexivity.
Qed.

(** A run that finds the assets in the cache. *)
Lemma main_hit (E : Env) (P : PIL) (upload : option (list Byte.byte))
      (w : World) (v : Assets) :
  cache w = Some v ->
  let out := match upload, fst v with
             | Some file, Some model => classify_outcome P model file
             | _, _ => (Ok tt, [])
             end in
  fst (main E P upload w) = fst out /\
  events_since w (snd (main E P upload w)) = snd out /\
  cache (snd (main E P upload w)) = Some v /\
  loads (snd (main E P upload w)) = loads w.
Proof.
  intros Hc out.
  rewrite (main_eq E P upload w w v (load_model_assets_hit E w v Hc)).
  rewrite init_uploader_key_eq. cbn [snd].
  set (w' := mk_World _ _ _ _ _).
  assert (Hlog : forall evs, events_since w (add_log w' evs) = evs).
  { intros evs. apply events_since_app. reflexivity. }
  unfold out.
  destruct upload as [file | ]; [destruct (fst v) as [model | ] |];
    try rewrite classify_eq; cbn [fst snd];
    try (rewrite Hlog; repeat split; assumption);
    (rewrite <- (add_log_nil w'), Hlog, add_log_nil; repeat split; assumption).
Qed.

(** The events of a run: those of the accessor, without inference, then
    those of the classification branch if it is entered. *)
Lemma main_events (E : Env) (P : PIL) (upload : option (list Byte.byte)) (w : World) :
  exists evs0,
    quiet evs0 /\
    events_since w (snd (main E P upload w)) =
      evs0 ++ match upload, model_in E w with
              | Some file, Some model => snd (classify_outcome P model file)
              | _, _ => []
              end /\
    fst (main E P upload w) =
      match upload, model_in E w with
      | Some file, Some model => fst (classify_outcome P model file)
      | _, _ => Ok tt
      end.
Proof.
  destruct (load_model_assets_returns E w)
    as (v & wa & evs0 & Hl & _ & _ & Hlog0 & Hq0 & _).
  exists evs0. split; [exact Hq0|].
  unfold model_in. rewrite Hl. cbn [fst]. destruct v as [m j]. cbn [fst].
  rewrite (main_eq E P upload w wa _ Hl), init_uploader_key_eq. cbn [fst snd].
  destruct upload as [file | ]; [destruct m as [model | ] |];
    try rewrite classify_eq; cbn [fst snd]; cbv beta iota; rewrite ?app_nil_r;
    (split; [apply events_since_app; cbn [log add_log]; rewrite Hlog0, <- ?app_assoc;
             reflexivity
            | reflexivity]).
Qed.

(** C9.  When a run on an uploaded file raises, the cache still holds the
    model object the accessor returned and the load count is unchanged; a
    later run on any file ends as it would have ended without the failed
    run, logs the same events and leaves the same cache, and on a file that
    decodes, that [st.image] draws and that the network answers with a
    non-empty array it succeeds, calling that same model object. *)
Theorem failure_isolation (E : Env) (P : PIL) (w : World)
        (bad : list Byte.byte) (e : exn) :
  fst (main E P (Some bad) w) = Raise e ->
  let wa := snd (load_model_assets E w) in
  let w1 := snd (main E P (Some bad) w) in
  exists model meta,
    cache wa = Some (Some model, meta) /\
    cache w1 = cache wa /\ loads w1 = loads wa /\
    forall good,
      fst (main E P (Some good) w1) = fst (main E P (Some good) wa) /\
      events_since w1 (snd (main E P (Some good) w1)) =
        events_since wa (snd (main E P (Some good) wa)) /\
      cache (snd (main E P (Some good) w1)) = cache wa /\
      loads (snd (main E P (Some good) w1)) = loads wa /\
      (forall img out x rest,
         Image_open P good = Ok img ->
         st_image P (convert P img ModeRGB) 220 = Ok tt ->
         m_net model (preprocess P (convert P img ModeRGB)) = Ok (PArray out) ->
         data out = x :: rest ->
         fst (main E P (Some good) w1) = Ok tt /\
         predict_addrs (events_since w1 (snd (main E P (Some good) w1))) =
           [m_addr model]).
Proof.
  intros Hfail wa w1.
  destruct (main_frame E P (Some bad) w) as (v & wa' & evs & Hl & Hc & Hn & _).
  assert (Hwa : wa = wa') by (unfold wa; rewrite Hl; reflexivity).
  destruct (load_model_assets_returns E w) as (v' & wa'' & _ & Hl' & Hca & _).
  rewrite Hl in Hl'. injection Hl' as <- <-. subst wa'.
  fold w1 in Hc, Hn.
  destruct v as [[model | ] meta].
  2:{ exfalso. rewrite (main_eq E P (Some bad) w wa _ Hl) in Hfail.
      cbn [fst] in Hfail. discriminate. }
  exists model, meta. split; [exact Hca|]. split; [congruence|]. split; [exact Hn|].
  intros good.
  destruct (main_hit E P (Some good) w1 _ Hc) as (Hr1 & Hev1 & Hc1 & Hn1).
  destruct (main_hit E P (Some good) wa _ Hca) as (Hra & Heva & _ & _).
  cbn [fst] in Hr1, Hev1, Hra, Heva.
  split; [congruence|]. split; [congruence|]. split; [congruence|]. split; [congruence|].
  intros img out x rest Hopen Hdraw Hnet Hdata.
  rewrite Hr1, Hev1. unfold classify_outcome. rewrite Hopen, Hdraw. cbv zeta.
  rewrite Hnet.
  unfold first_scalar, getitem0, flatten. cbn [data]. rewrite Hdata. cbn [fst snd].
  split; [reflexivity|]. destruct (is_high x); reflexivity.
Qed.

Lemma failure_isolation_example :
  fst (main env_direct stub_PIL (Some []) init_world) =
    Raise "UnidentifiedImageError: cannot identify image file"%string /\
  cache (snd (main env_direct stub_PIL (Some []) init_world)) =
    cache (snd (load_model_assets env_direct init_world)) /\
  loads (snd (main env_direct stub_PIL (Some []) init_world)) =
    loads (snd (load_model_assets env_direct init_world)) /\
  fst (main env_direct stub_PIL (Some [Byte.x80])
         (snd (main env_direct stub_PIL (Some []) init_world))) = Ok tt.
Proof.
  split; [reflexivity|].
  destruct (failure_isolation env_direct stub_PIL init_world [] _ eq_refl)
    as (model & meta & Hca & Hc & Hn & Hgood).
  split; [exact Hc | split; [exact Hn|]].
  destruct (Hgood [Byte.x80]) as (_ & _ & _ & _ & Hok).
  injection Hca as <- _.
  exact (proj1 (Hok _ _ (decimal 9 1) [] eq_refl eq_refl eq_refl eq_refl)).
Defined.

(** ** Failed loading *)

Lemma main_without_model (E : Env) (P : PIL) (upload : option (list Byte.byte)) (w : World) :
  load_fails E -> no_model w -> no_model (snd (main E P upload w)).
Proof.
  intros Hf [Hc Hq].
  destruct (load_model_assets_returns E w)
    as (v & wa & evs0 & Hl & Hca & _ & Hlog & Hq0 & Hcase).
  assert (Hv : exists j, v = (None, j)).
  { destruct Hc as [Hc | [j Hc]]; rewrite Hc in Hcase.
    - destruct Hcase as [_ Hv]. exists None. apply Hv, Hf.
    - destruct Hcase as [-> _]. exists j. reflexivity. }
  destruct Hv as [j ->].
  rewrite (main_eq E P upload w wa _ Hl), init_uploader_key_eq. cbn [fst snd].
  assert (Hgoal : no_model
            (mk_World (cache wa) (loads wa) (next_addr wa)
               (Some match uploader_key wa with Some k => k | None => 0%nat end)
               (log wa))).
  { split; cbn [cache log].
    - right. exists j. exact Hca.
    - rewrite Hlog. apply Forall_app. split; assumption. }
  destruct upload; exact Hgoal.
Qed.

Lemma step_without_model (E : Env) (P : PIL) (w : World) (a : Action) :
  load_fails E -> no_model w -> no_model (step E P w a).
Proof.
  intros Hf Hw. destruct a as [upload | ]; cbn [step].
  - apply main_without_model; assumption.
  - unfold bind, handle_restart. destruct (uploader_key w) as [k | ].
    + apply main_without_model; [exact Hf|]. exact Hw.
    + exact Hw.
Qed.

Lemma run_session_without_model (E : Env) (P : PIL) (acts : list Action) (w : World) :
  load_fails E -> no_model w -> no_model (run_session E P acts w).
Proof.
  intros Hf. revert w. induction acts as [ | a acts IH]; intros w Hw; [exact Hw|].
  cbn [run_session fold_left]. apply IH. apply step_without_model; assumption.
Qed.

(** C10.  If loading fails (unreadable metadata, or direct load and
    rebuilt model both failing) the accessor returns [(None, None)]; a run
    that finds a [None] model skips the classification branch whatever was
    uploaded; and from a fresh process no sequence of runs ever logs an
    inference event (no decode, no predict, no result). *)
Theorem load_failure_disables_inference (E : Env) :
  load_fails E ->
  (forall w, cache w = None -> fst (load_model_assets E w) = Ok (None, None)) /\
  (forall P upload w j, cache w = Some (None, j) ->
     fst (main E P upload w) = Ok tt /\
     events_since w (snd (main E P upload w)) = []) /\
  (forall P acts,
     Forall (fun ev => is_inference ev = false)
            (log (run_session E P acts init_world))).
Proof.
  intros Hf. split; [|split].
  - intros w Hc. destruct (load_model_assets_miss E w Hc) as (v & a & evs & -> & _ & Hv).
    cbn [fst]. rewrite (Hv Hf). reflexivity.
  - intros P upload w j Hc.
    destruct (main_hit E P upload w _ Hc) as (Hr & Hev & _).
    cbn [fst] in Hr, Hev. destruct upload; split; assumption.
  - intros P acts.
    apply (run_session_without_model E P acts init_world Hf).
    split; [left; reflexivity | constructor].
Qed.

Lemma load_failure_example :
  load_fails env_no_meta /\
  fst (load_model_assets env_no_meta init_world) = Ok (None, None) /\
  Forall (fun ev => is_inference ev = false)
    (log (run_session env_no_meta stub_PIL
            [Rerun (Some [Byte.x80]); ClickRestart; Rerun (Some [Byte.x80])]
            init_world)).
Proof.
  assert (Hf : load_fails env_no_meta).
  { left. exists "FileNotFoundError"%string. reflexivity. }
  split; [exact Hf|].
  destruct (load_failure_disables_inference env_no_meta Hf) as (H1 & _ & H3).
  split; [apply H1; reflexivity | apply H3].
Defined.

(** ** The shape of the network's input *)

(** Line 106 in closed form. *)
Lemma open_rgb_eq (P : PIL) (file : list Byte.byte) (w : World) :
  open_rgb P file w =
  (match Image_open P file with
   | Ok im => Ok (convert P im ModeRGB)
   | Raise e => Raise e
   end, add_log w [EvImageOpen file]).
Proof.
  cbv [open_rgb bind call emit lift ret].
  destruct (Image_open P file); reflexivity.
Qed.


(** C2.  Whatever the size and the colour mode of the image a file decodes
    to, line 106 hands on an RGB image of the same size, and the tensor line
    109 makes of it (resize to 224x224, division by 255.0, batch axis) has
    shape (1, 224, 224, 3), a buffer of that many elements, each a float
    with value in [0, 1]; it is the tensor the run hands to the network
    once [st.image] has drawn the picture. *)
Theorem preprocess_shape_range (P : PIL) (file : list Byte.byte) (im : Image)
        (w : World) :
  PIL_contract P -> Image_open P file = Ok im ->
  exists img,
    fst (open_rgb P file w) = Ok img /\
    im_mode img = ModeRGB /\ im_size img = im_size im /\
    let t := preprocess P img in
    shape t = [1%nat; 224%nat; 224%nat; 3%nat] /\
    List.length (data t) = size_of (shape t) /\
    Forall is_probability (data t) /\
    (forall model,
        st_image P img 220 = Ok tt ->
        predict_inputs (events_since w (snd (classify P model file w))) = [t]).
Proof.
  intros HP Hopen. exists (convert P im ModeRGB).
  pose proof (proj1 HP file im Hopen) as Him.
  destruct (proj1 (proj2 HP) im Him) as (_ & Hmode & Hsize).
  destruct (preprocess_rgb_tensor P im HP Him) as (Hsh & Hlen & Hall).
  rewrite open_rgb_eq, Hopen. cbn [fst].
  split; [reflexivity | split; [exact Hmode | split; [exact Hsize|]]].
  cbv zeta. split; [exact Hsh | split; [exact Hlen | split; [exact Hall|]]].
  intros model Hdraw.
  rewrite classify_eq. cbn [snd]. rewrite events_since_add_log.
  rewrite classify_outcome_inputs, Hopen, Hdraw. reflexivity.
Qed.

Lemma preprocess_shape_range_example :
  PIL_contract stub_PIL /\
  Image_open stub_PIL [Byte.x80] = Ok (mk_Image ModeL (1%nat, 1%nat) [128]) /\
  exists img,
    fst (open_rgb stub_PIL [Byte.x80] init_world) = Ok img /\
    im_mode img = ModeRGB /\
    shape (preprocess stub_PIL img) = [1%nat; 224%nat; 224%nat; 3%nat] /\
    Forall is_probability (data (preprocess stub_PIL img)).
Proof.
  split; [exact stub_PIL_contract | split; [reflexivity|]].
  destruct (preprocess_shape_range stub_PIL [Byte.x80] _ init_world
              stub_PIL_contract eq_refl)
    as (img & Ho & Hm & _ & Hsh & _ & Hall & _).
  exists img. repeat split; assumption.
Defined.




(** ** Reading the network's answer *)

(** C4, as amended.  When the network answers with an array, line 110 reads
    the first element of the flattened array whatever follows it: the run
    succeeds and reports that element.  It raises when the array is empty
    (IndexError) and when the answer is not an array but a list of arrays
    (AttributeError). *)
Theorem output_read_by_first_element (E : Env) (P : PIL) (w : World)
        (file : list Byte.byte) (model : Model) (img : Image) :
  model_in E w = Some model ->
  Image_open P file = Ok img ->
  st_image P (convert P img ModeRGB) 220 = Ok tt ->
  let t := preprocess P (convert P img ModeRGB) in
  (forall sh x rest,
      m_net model t = Ok (PArray (mk_ndarray sh (x :: rest))) ->
      fst (main E P (Some file) w) = Ok tt /\
      exists evs,
        events_since w (snd (main E P (Some file) w)) =
          evs ++ [EvResult (status_class x) (label x) (percent x);
                  if is_high x then EvWarning else EvSuccess]) /\
  (forall sh,
      m_net model t = Ok (PArray (mk_ndarray sh [])) ->
      fst (main E P (Some file) w) =
        Raise "IndexError: index 0 is out of bounds for axis 0 with size 0"%string) /\
  (forall outs,
      m_net model t = Ok (PList outs) ->
      fst (main E P (Some file) w) =
        Raise "AttributeError: 'list' object has no attribute 'flatten'"%string).
Proof.
  intros Hm Hopen Hdraw t.
  destruct (main_events E P (Some file) w) as (evs0 & _ & Hev & Hr).
  rewrite Hm in Hev, Hr. rewrite Hev, Hr. clear Hev Hr.
  unfold classify_outcome. rewrite Hopen, Hdraw. cbv zeta. fold t.
  split; [|split].
  - intros sh x rest Hnet. rewrite Hnet. cbn [first_scalar getitem0 flatten data fst snd].
    split; [reflexivity|].
    exists (evs0 ++ [EvImageOpen file; EvImage 220; EvPredict (m_addr model) t]).
    rewrite <- !app_assoc. reflexivity.
  - intros sh Hnet. rewrite Hnet. reflexivity.
  - intros outs Hnet. rewrite Hnet. reflexivity.
Qed.

Lemma output_read_by_first_element_example :
  model_in env_weights_only init_world = Some (mk_Model 0 net_two) /\
  fst (main env_weights_only stub_PIL (Some [Byte.x80]) init_world) = Ok tt.
Proof.
  split; [reflexivity|].
  exact (proj1 (proj1 (output_read_by_first_element env_weights_only stub_PIL
                         init_world [Byte.x80] (mk_Model 0 net_two)
                         (mk_Image ModeL (1%nat, 1%nat) [128])
                         eq_refl eq_refl eq_refl)
                      [1%nat; 2%nat] (decimal 9 1) [decimal 1 1] eq_refl)).
Defined.

(** C4 as stated fails: an output of shape (1, 2), which holds more than
    one value, is not rejected; its first element 0.9 is taken and the run
    reports high risk, 90.0%. *)
Lemma two_outputs_accepted :
  (exists out, net_two (mk_ndarray [] []) = Ok (PArray out) /\
               shape out = [1%nat; 2%nat] /\ List.length (data out) = 2%nat /\
               first_scalar (PArray out) = Ok (decimal 9 1)) /\
  fst (main env_weights_only stub_PIL (Some [Byte.x80]) init_world) = Ok tt /\
  In (EvResult "risk-high-text" "high risk" "90.0")
     (log (snd (main env_weights_only stub_PIL (Some [Byte.x80]) init_world))).
Proof.
  split.
  - eexists. split; [reflexivity|]. repeat split.
  - destruct (load_model_assets_returns env_weights_only init_world)
      as (v & wa & evs & Hl & _).
    assert (Hv : v = (Some (mk_Model 0 net_two), Some (JObj []))).
    { assert (H : fst (load_model_assets env_weights_only init_world) =
                  Ok (Some (mk_Model 0 net_two), Some (JObj []))) by reflexivity.
      rewrite Hl in H. injection H as ->. reflexivity. }
    subst v.
    rewrite (main_eq _ _ _ _ _ _ Hl). cbn [fst]. rewrite classify_eq.
    cbn [fst snd log add_log].
    unfold classify_outcome.
    change (Image_open stub_PIL [Byte.x80]) with (stub_open [Byte.x80]).
    cbv beta iota zeta delta [stub_open].
    change (st_image stub_PIL
              (convert stub_PIL (mk_Image ModeL (1%nat, 1%nat) [Z.of_N (Byte.to_N Byte.x80)]) ModeRGB)
              220) with (@Ok unit tt).
    cbv beta iota zeta delta [m_net net_two first_scalar getitem0 flatten data fst snd].
    split; [reflexivity|].
    apply in_or_app. right. apply in_or_app. right. left.
    vm_compute. reflexivity.
Qed.

(* ------------------------------------------------------------------ *)
(** ** Further properties of the code *)

(** ** The classifier on every float *)

(** X2.  On every valid float the comparison of line 112 is true exactly
    for plus infinity and for the finite floats whose value exceeds one
    half; there is no range check, every float gets one of the two labels,
    and a NaN is labelled "low risk". *)
Theorem is_high_every_float (x : float) :
  valid x = true ->
  (is_high x = true <->
   x = S754_infinity false \/ (is_finite x = true /\ (1 # 2 < value x)%Q)) /\
  (label x = "high risk"%string \/ label x = "low risk"%string) /\
  (x = S754_nan -> label x = "low risk"%string).
Proof.
  intros Hv. split; [|split].
  - destruct x as [s | s | | s m e].
    + rewrite (is_high_spec _ Hv eq_refl). split.
      * intros H. right. split; [reflexivity | exact H].
      * intros [H | [_ H]]; [discriminate | exact H].
    + unfold is_high, fgt. rewrite half_eq. destruct s; cbn; split.
      * discriminate.
      * intros [H | [H _]]; discriminate.
      * intros _. left. reflexivity.
      * reflexivity.
    + unfold is_high, fgt. rewrite half_eq. cbn. split.
      * discriminate.
      * intros [H | [H _]]; discriminate.
    + rewrite (is_high_spec _ Hv eq_refl). split.
      * intros H. right. split; [reflexivity | exact H].
      * intros [H | [_ H]]; [discriminate | exact H].
  - unfold label. destruct (is_high x); [left | right]; reflexivity.
  - intros ->. reflexivity.
Qed.

Lemma is_high_every_float_example :
  valid S754_nan = true /\ is_high S754_nan = false /\
  label S754_nan = "low risk"%string.
Proof.
  split; [reflexivity|].
  destruct (is_high_every_float S754_nan eq_refl) as (Hiff & _ & Hnan).
  split; [|exact (Hnan eq_refl)].
  destruct (is_high S754_nan) eqn:Hh; [|reflexivity].
  destruct (proj1 Hiff eq_refl) as [H | [H _]]; discriminate.
Defined.

(** ** Normalisation keeps the order of the samples *)

Lemma adjacent_all : forallb adjacent_check (seq 0 255) = true.
Proof. vm_compute. reflexivity. Qed.

Lemma norm_value_step (n : nat) :
  (n < 255)%nat -> (norm_value n < norm_value (S n))%Q.
Proof.
  intros Hn. pose proof adjacent_all as H. rewrite forallb_forall in H.
  assert (Hin : In n (seq 0 255)) by (apply in_seq; lia).
  apply H in Hin. unfold adjacent_check in Hin.
  apply negb_true_iff in Hin.
  apply Qnot_le_lt. intros Hle. apply Qle_bool_iff in Hle. congruence.
Qed.

Lemma norm_value_mono (a b : nat) :
  (a < b)%nat -> (b <= 255)%nat -> (norm_value a < norm_value b)%Q.
Proof.
  intros Hab. induction Hab as [ | b Hab IH]; intros Hb.
  - apply norm_value_step. lia.
  - apply Qlt_trans with (norm_value b); [apply IH; lia | apply norm_value_step; lia].
Qed.

(** X4.  Dividing by 255.0 keeps the order of 8-bit samples: of two
    samples the larger one gives the float with the larger value, so
    different samples never collapse. *)
Theorem div_255_keeps_order (sh : list nat) (v w : Z) :
  0 <= v -> v < w -> w <= 255 ->
  exists x y,
    data (div_255 (mk_ndarray sh [v; w])) = [x; y] /\ (value x < value y)%Q.
Proof.
  intros H0 Hvw Hw. eexists. eexists. split; [reflexivity|].
  pose proof (norm_value_mono (Z.to_nat v) (Z.to_nat w) ltac:(lia) ltac:(lia)) as H.
  unfold norm_value in H. rewrite !Z2Nat.id in H by lia. exact H.
Qed.

Lemma div_255_endpoints :
  data (div_255 (mk_ndarray [2%nat] [0; 255])) = [S754_zero false; of_Z 1].
Proof. vm_compute. reflexivity. Qed.

Lemma div_255_keeps_order_example :
  0 <= 0 /\ 0 < 255 /\ 255 <= 255 /\
  exists x y,
    data (div_255 (mk_ndarray [2%nat] [0; 255])) = [x; y] /\ (value x < value y)%Q.
Proof.
  split; [lia | split; [lia | split; [lia|]]].
  exact (div_255_keeps_order [2%nat] 0 255 ltac:(lia) ltac:(lia) ltac:(lia)).
Defined.

(** ** The percentage never exceeds 100 *)

(** Shifting right never gains: [n] shifts leave at most [m / 2^n]. *)
Lemma shr_1_halves (mrs : shr_record) :
  0 <= shr_m mrs -> 0 <= shr_m (shr_1 mrs) /\ shr_m (shr_1 mrs) * 2 <= shr_m mrs.
Proof.
  destruct mrs as [m r s]. cbn [shr_m].
  destruct m as [ | [q | q | ] | [q | q | ]]; cbn [shr_1 shr_m]; lia.
Qed.

Lemma iter_shr_1_le (n : positive) (mrs : shr_record) :
  0 <= shr_m mrs ->
  0 <= shr_m (iter_pos shr_1 n mrs) /\
  shr_m (iter_pos shr_1 n mrs) * 2 ^ Zpos n <= shr_m mrs.
Proof.
  revert mrs. induction n as [n IH | n IH | ]; intros mrs H0; cbn [iter_pos].
  - destruct (shr_1_halves mrs H0) as [Ha Hb].
    destruct (IH _ Ha) as [Hc Hd]. destruct (IH _ Hc) as [He Hf].
    split; [exact He|].
    replace (Zpos n~1) with (Zpos n + Zpos n + 1) by lia.
    rewrite !Z.pow_add_r, Z.pow_1_r by lia.
    assert (0 < 2 ^ Zpos n) by (apply Z.pow_pos_nonneg; lia). nia.
  - destruct (IH _ H0) as [Hc Hd]. destruct (IH _ Hc) as [He Hf].
    split; [exact He|].
    replace (Zpos n~0) with (Zpos n + Zpos n) by lia.
    rewrite !Z.pow_add_r by lia.
    assert (0 < 2 ^ Zpos n) by (apply Z.pow_pos_nonneg; lia). nia.
  - change (2 ^ 1) with 2. apply shr_1_halves. exact H0.
Qed.

Lemma shr_fexp_le (m e : Z) (l : location) :
  0 <= m ->
  let '(mrs, e') := shr_fexp prec emax m e l in
  e' = Z.max e (fexp prec emax (Zdigits2 m + e)) /\
  0 <= shr_m mrs /\ shr_m mrs * 2 ^ (e' - e) <= m.
Proof.
  intros Hm. unfold shr_fexp, shr.
  assert (H0 : shr_m (shr_record_of_loc m l) = m) by (destruct l as [ | []]; reflexivity).
  destruct (fexp prec emax (Zdigits2 m + e) - e) as [ | n | n] eqn:Hn.
  - rewrite H0. replace (e - e) with 0 by lia. cbn. lia.
  - destruct (iter_shr_1_le n (shr_record_of_loc m l)) as [Ha Hb]; [lia|].
    rewrite H0 in Hb. replace (e + Zpos n - e) with (Zpos n) by lia.
    split; [lia | split; assumption].
  - rewrite H0. replace (e - e) with 0 by lia. cbn. lia.
Qed.

(** A non-negative integer below [2^k] has at most [k] bits (from the
    bounds of [digits2_pos]). *)
Lemma Zdigits2_lt_pow (m k : Z) :
  0 <= m < 2 ^ k -> 0 <= k -> Zdigits2 m <= k.
Proof. intros H Hk. apply Zdigits2_le; assumption. Qed.

(** Rounding a value below 100 gives at most 100. *)
Lemma binary_round_aux_le_100 (m e : Z) :
  0 <= m -> e <= -46 -> m < 100 * 2 ^ (- e) ->
  match binary_round_aux prec emax false m e loc_Exact with
  | S754_zero _ => True
  | S754_finite _ m2 e2 => e2 <= -46 /\ Zpos m2 <= 100 * 2 ^ (- e2)
  | _ => False
  end.
Proof.
  intros Hm He Hlt. unfold binary_round_aux.
  pose proof (shr_fexp_le m e loc_Exact Hm) as H1.
  destruct (shr_fexp prec emax m e loc_Exact) as [mrs1 e1].
  destruct H1 as (He1 & Ha0 & Ha).
  set (a := shr_m mrs1) in *.
  set (m1 := round_nearest_even a (loc_of_shr_record mrs1)).
  assert (Hm1 : 0 <= m1 <= a + 1) by (apply round_nearest_even_bound; exact Ha0).
  assert (H128 : forall k, 0 <= k -> 100 * 2 ^ k < 2 ^ (7 + k)).
  { intros k Hk. rewrite Z.pow_add_r by lia. change (2 ^ 7) with 128.
    assert (0 < 2 ^ k) by (apply Z.pow_pos_nonneg; lia). lia. }
  assert (Hd : Zdigits2 m <= 7 - e).
  { apply Zdigits2_lt_pow; [|lia]. split; [exact Hm|].
    specialize (H128 (- e) ltac:(lia)). replace (7 - e) with (7 + - e) by lia. lia. }
  assert (He1' : e <= e1 <= -46).
  { unfold fexp, emin, prec, emax in He1. lia. }
  assert (Hpow : 2 ^ (- e) = 2 ^ (- e1) * 2 ^ (e1 - e)).
  { rewrite <- Z.pow_add_r by lia. f_equal. lia. }
  assert (Hp1 : 0 < 2 ^ (e1 - e)) by (apply Z.pow_pos_nonneg; lia).
  assert (Hp2 : 0 < 2 ^ (- e1)) by (apply Z.pow_pos_nonneg; lia).
  assert (Ha1 : a < 100 * 2 ^ (- e1)).
  { rewrite Hpow in Hlt. nia. }
  assert (Hm1' : m1 <= 100 * 2 ^ (- e1)) by lia.
  pose proof (shr_fexp_le m1 e1 loc_Exact (proj1 Hm1)) as H2.
  destruct (shr_fexp prec emax m1 e1 loc_Exact) as [mrs2 e2].
  destruct H2 as (He2 & Hb0 & Hb).
  assert (Hd1 : Zdigits2 m1 <= 7 - e1).
  { apply Zdigits2_lt_pow; [|lia]. split; [lia|].
    specialize (H128 (- e1) ltac:(lia)). replace (7 - e1) with (7 + - e1) by lia. lia. }
  assert (He2' : e1 <= e2 <= -46).
  { unfold fexp, emin, prec, emax in He2. lia. }
  assert (Hpow2 : 2 ^ (- e1) = 2 ^ (- e2) * 2 ^ (e2 - e1)).
  { rewrite <- Z.pow_add_r by lia. f_equal. lia. }
  assert (Hp3 : 0 < 2 ^ (e2 - e1)) by (apply Z.pow_pos_nonneg; lia).
  assert (Hp4 : 0 < 2 ^ (- e2)) by (apply Z.pow_pos_nonneg; lia).
  destruct (shr_m mrs2) as [ | q | q] eqn:Hq; [exact I | | lia].
  replace (e2 <=? emax - prec) with true
    by (symmetry; apply Z.leb_le; unfold emax, prec; lia).
  split; [lia|]. rewrite Hpow2 in Hm1'. nia.
Qed.

Lemma one_eq : of_Z 1 = S754_finite false 4503599627370496 (-52).
Proof. vm_compute. reflexivity. Qed.

(** The only probability with value 1 is the float 1.0. *)
Lemma probability_below_one (m : positive) (e : Z) :
  is_probability (S754_finite false m e) ->
  S754_finite false m e = of_Z 1 \/
  (exists k, e = Zneg k /\ Zpos m < 2 ^ Zpos k).
Proof.
  intros (Hv & _ & _ & H1).
  destruct (valid_finite_bounds false m e Hv) as (Hm & He & Hn).
  assert (H52 : 2 ^ 52 = 4503599627370496) by reflexivity.
  assert (H53 : 2 ^ 53 = 2 * 2 ^ 52) by reflexivity.
  destruct e as [ | k | k].
  - exfalso. unfold value, Qle, inject_Z in H1. cbv [Qnum Qden] in H1.
    specialize (Hn ltac:(lia)). lia.
  - exfalso. unfold value, Qle, inject_Z in H1. cbv [Qnum Qden] in H1.
    assert (1 <= 2 ^ Zpos k) by (apply (Z.pow_le_mono_r 2 0); lia).
    specialize (Hn ltac:(lia)). nia.
  - unfold value, Qle in H1. cbv [Qnum Qden] in H1. rewrite Pos2Z.inj_pow in H1.
    destruct (Z_lt_le_dec (Zpos m) (2 ^ Zpos k)) as [Hlt | Hge];
      [right; exists k; split; [reflexivity | exact Hlt] | left].
    assert (Heq : Zpos m = 2 ^ Zpos k) by lia.
    assert (Hk : Zpos k = 52).
    { destruct (Z_lt_le_dec (Zpos k) 53) as [Hk53 | Hk53].
      - destruct (Z.eq_dec (Zneg k) (-1074)) as [Hmin | Hmin]; [lia|].
        specialize (Hn ltac:(lia)). rewrite Heq in Hn.
        apply Z.pow_le_mono_r_iff in Hn; lia.
      - exfalso. assert (2 ^ 53 <= 2 ^ Zpos k) by (apply Z.pow_le_mono_r; lia). lia. }
    rewrite one_eq. injection Hk as ->. f_equal. apply Pos2Z.inj. rewrite Heq.
    reflexivity.
Qed.

Lemma round_half_even_le (q : Q) (K : Z) :
  (q <= inject_Z K)%Q -> round_half_even q <= K.
Proof.
  intros Hq. unfold round_half_even.
  pose proof (Qfloor_le q) as Hlo.
  assert (Hf : Qfloor q <= K).
  { rewrite <- (Qfloor_Z K). apply Qfloor_resp_le. exact Hq. }
  destruct (Z.eq_dec (Qfloor q) K) as [Heq | Hne].
  - assert (Hz : (q - inject_Z (Qfloor q) <= 0)%Q) by (rewrite Heq; lra).
    destruct (Qcompare_spec (q - inject_Z (Qfloor q)) (1 # 2)) as [He | Hl | Hg].
    + exfalso. rewrite He in Hz. revert Hz. apply Qlt_not_le. reflexivity.
    + lia.
    + exfalso. lra.
  - destruct (Qcompare (q - inject_Z (Qfloor q)) (1 # 2)); [destruct (Z.even (Qfloor q)) | |]; lia.
Qed.

(** The text of the percentage, by the value of the product. *)
Lemma percent_text (p : float) :
  is_probability p ->
  percent p =
    ((match p with S754_zero true => "-" | _ => "" end) ++
     tenths_string (round_half_even (Qabs (value (fmul p (of_Z 100))) * 10)))%string.
Proof.
  intros Hp. pose proof (percent_operand_finite p Hp) as Hx.
  unfold percent.
  destruct (probability_cases p Hp) as [[s ->] | (m & e & -> & _)].
  - destruct s; vm_compute; reflexivity.
  - destruct (fmul (S754_finite false m e) (of_Z 100)) as [s | s | | s m2 e2];
      try contradiction.
    + destruct Hx as [-> | Hx]; [vm_compute; reflexivity | discriminate Hx].
    + subst s. reflexivity.
Qed.

(** X3.  For every probability the product [prediction * 100] has a value
    between 0 and 100, so the displayed number is between 0.0 and 100.0:
    the text is that of [N] tenths with [0 <= N <= 1000]. *)
Theorem percent_at_most_100 (p : float) :
  is_probability p ->
  (0 <= value (fmul p (of_Z 100)))%Q /\
  (value (fmul p (of_Z 100)) <= 100)%Q /\
  exists N, 0 <= N <= 1000 /\
    percent p =
      ((match p with S754_zero true => "-" | _ => "" end) ++ tenths_string N)%string.
Proof.
  intros Hp.
  assert (Hrange : (0 <= value (fmul p (of_Z 100)))%Q /\
                   (value (fmul p (of_Z 100)) <= 100)%Q).
  { destruct (probability_cases p Hp) as [[s ->] | (m & e & -> & Hm & He)].
    - destruct s; split; vm_compute; discriminate.
    - destruct (probability_below_one m e Hp) as [-> | (k & -> & Hlt)].
      + split; vm_compute; discriminate.
      + pose proof (percent_operand_finite _ Hp) as Hs.
        rewrite hundred_eq in *. unfold fmul, SFmul in *. cbn [xorb] in *.
        assert (Hpre : Zpos (m * 7036874417766400) < 100 * 2 ^ (- (Zneg k + -46))).
        { rewrite Pos2Z.inj_mul.
          replace (- (Zneg k + -46)) with (46 + Zpos k) by lia.
          rewrite Z.pow_add_r by lia.
          assert (H46 : 100 * 2 ^ 46 = 7036874417766400) by reflexivity.
          assert (0 < 2 ^ Zpos k) by (apply Z.pow_pos_nonneg; lia). nia. }
        pose proof (binary_round_aux_le_100 (Zpos (m * 7036874417766400))
                      (Zneg k + -46) ltac:(lia) ltac:(lia) Hpre) as Hr.
        destruct (binary_round_aux prec emax false (Zpos (m * 7036874417766400))
                    (Zneg k + -46) loc_Exact) as [s | s | | s m2 e2];
          try contradiction.
        * split; vm_compute; discriminate.
        * subst s. destruct Hr as [He2 Hm2]. split; [apply value_nonneg|].
          destruct e2 as [ | k2 | k2]; try lia.
          unfold value, Qle. cbv [Qnum Qden]. rewrite Pos2Z.inj_pow.
          replace (- Zneg k2) with (Zpos k2) in Hm2 by lia. lia. }
  destruct Hrange as [H0 H100]. split; [exact H0 | split; [exact H100|]].
  exists (round_half_even (Qabs (value (fmul p (of_Z 100))) * 10)).
  assert (Habs : (Qabs (value (fmul p (of_Z 100))) == value (fmul p (of_Z 100)))%Q)
    by (apply Qabs_pos; exact H0).
  split; [split|].
  - apply round_half_even_spec. lra.
  - apply round_half_even_le. change (inject_Z 1000) with 1000%Q. lra.
  - apply percent_text. exact Hp.
Qed.

Lemma percent_at_most_100_example :
  is_probability (of_Z 1) /\
  (value (fmul (of_Z 1) (of_Z 100)) <= 100)%Q /\
  exists N, 0 <= N <= 1000 /\ percent (of_Z 1) = tenths_string N.
Proof.
  assert (Hp : is_probability (of_Z 1)).
  { unfold is_probability.
    repeat split; try (vm_compute; reflexivity); vm_compute; discriminate. }
  split; [exact Hp|].
  destruct (percent_at_most_100 (of_Z 1) Hp) as (_ & H100 & N & HN & Hs).
  split; [exact H100|]. exists N. split; [exact HN|].
  rewrite Hs, one_eq. reflexivity.
Defined.

(** ** The loader never raises *)

(** X1.  The load routine never raises and never returns metadata without
    a model.  Either it returns [(None, None)], loading has failed and
    [st.error] was called with the prefixed message; or it returns a model
    together with whatever [json.load] gave for the metadata file ([None]
    when the file holds [null]), the model coming from the direct load if
    that succeeded and from the weights otherwise, and [st.error] was not
    called. *)
Theorem load_model_assets_never_raises (E : Env) (w : World) :
  exists v,
    fst (load_model_assets_body E w) = Ok v /\
    ((v = (None, None) /\ load_fails E /\
      exists msg, In (EvError ("Critical error loading assets: " ++ msg))
                     (events_since w (snd (load_model_assets_body E w)))) \/
     (exists net meta,
        v = (Some (mk_Model (next_addr w) net), py_of_json meta) /\
        json_load_file E (META_PATH E) = Ok meta /\
        (load_model E (MODEL_PATH E) false = Ok net \/
         ((exists e, load_model E (MODEL_PATH E) false = Raise e) /\
          load_weights E fallback_layers (MODEL_PATH E) = Ok net)) /\
        Forall (fun ev => match ev with EvError _ => False | _ => True end)
               (events_since w (snd (load_model_assets_body E w))))).
Proof.
  rewrite load_model_assets_body_eq. cbv zeta. unfold load_fails.
  loader_cases E; cbn [fst snd]; eexists; (split; [reflexivity|]).
  - right. exists net, meta.
    split; [reflexivity | split; [reflexivity | split]].
    + left. reflexivity.
    + erewrite events_since_app by (cbn [log]; reflexivity). repeat constructor.
  - right. exists net, meta.
    split; [reflexivity | split; [reflexivity | split]].
    + right. split; [exists e; reflexivity | reflexivity].
    + erewrite events_since_app by (cbn [log]; reflexivity). repeat constructor.
  - left. split; [reflexivity | split].
    + right. split; eexists; reflexivity.
    + exists e0. erewrite events_since_app by (cbn [log]; reflexivity). cbn. tauto.
  - left. split; [reflexivity | split].
    + left. eexists. reflexivity.
    + exists e. erewrite events_since_app by (cbn [log]; reflexivity). cbn. tauto.
Qed.

(** A metadata file that holds [null]: the model comes with [None]. *)
Lemma load_with_null_metadata :
  fst (load_model_assets_body (env_of (Ok JNull) (Ok net_09) (Raise "unused"%string))
         init_world) = Ok (Some (mk_Model 0 net_09), None).
Proof. reflexivity. Qed.

(** ** The uploader key *)

Lemma main_uploader_key (E : Env) (P : PIL) (upload : option (list Byte.byte)) (w : World) :
  uploader_key (snd (main E P upload w)) =
  Some (match uploader_key w with Some k => k | None => 0%nat end).
Proof.
  destruct (load_model_assets_returns E w) as (v & wa & evs & Hl & _ & Hk & _).
  rewrite (main_eq E P upload w wa v Hl), init_uploader_key_eq. cbn [snd].
  rewrite Hk.
  destruct upload as [file | ]; [destruct (fst v) as [model | ] |];
    try rewrite classify_eq; reflexivity.
Qed.

Lemma run_session_uploader_key (E : Env) (P : PIL) (acts : list Action) (w : World) (k : nat) :
  uploader_key w = Some k ->
  uploader_key (run_session E P acts w) = Some (k + restarts acts)%nat.
Proof.
  revert w k. induction acts as [ | a acts IH]; intros w k Hk.
  - cbn. rewrite Nat.add_0_r. exact Hk.
  - cbn [run_session fold_left]. fold (run_session E P acts (step E P w a)).
    destruct a as [upload | ]; cbn [step].
    + rewrite (IH _ k); [reflexivity|]. rewrite main_uploader_key, Hk. reflexivity.
    + unfold bind, handle_restart. rewrite Hk.
      rewrite (IH _ (S k)).
      * unfold restarts. cbn [filter is_restart List.length]. f_equal. lia.
      * rewrite main_uploader_key. reflexivity.
Qed.

(** X5.  After a first run, the session's [uploader_key] is the number
    of clicks on the restart button so far: runs, failing or not, never
    change it and each click adds one. *)
Theorem uploader_key_counts_restarts (E : Env) (P : PIL)
        (upload : option (list Byte.byte)) (acts : list Action) :
  uploader_key (run_session E P (Rerun upload :: acts) init_world) =
    Some (restarts acts).
Proof.
  cbn [run_session fold_left step].
  fold (run_session E P acts (snd (main E P upload init_world))).
  rewrite (run_session_uploader_key E P acts _ 0%nat); [reflexivity|].
  rewrite main_uploader_key. reflexivity.
Qed.

Lemma to_uint_nonnil (n : nat) : Nat.to_uint n <> Decimal.Nil.
Proof.
  rewrite <- (DecimalNat.Unsigned.of_to n) at 1. rewrite DecimalNat.Unsigned.to_of.
  apply DecimalFacts.unorm_nonnil.
Qed.

(** X6.  The widget key of line 100 is different for different values of
    [uploader_key], so after a restart the uploader is a new widget. *)
Theorem uploader_widget_injective (j k : nat) :
  String.eqb (uploader_widget j) (uploader_widget k) = Nat.eqb j k.
Proof.
  destruct (Nat.eqb_spec j k) as [-> | Hne].
  - apply String.eqb_refl.
  - apply String.eqb_neq. intros H. apply Hne.
    unfold uploader_widget in H.
    assert (Hs : NilZero.string_of_uint (Nat.to_uint j) =
                 NilZero.string_of_uint (Nat.to_uint k)).
    { cbn [append] in H. repeat (injection H as H). exact H. }
    assert (Hu : Some (Nat.to_uint j) = Some (Nat.to_uint k)).
    { rewrite <- (NilZero.usu (Nat.to_uint j)), <- (NilZero.usu (Nat.to_uint k)).
      - rewrite Hs. reflexivity.
      - apply to_uint_nonnil.
      - apply to_uint_nonnil. }
    injection Hu as Hu. apply DecimalNat.Unsigned.to_uint_inj. exact Hu.
Qed.

(** ** The metadata decides nothing *)

Lemma same_but_meta_paths (E1 E2 : Env) :
  same_but_meta E1 E2 -> MODEL_PATH E1 = MODEL_PATH E2 /\ META_PATH E1 = META_PATH E2.
Proof.
  intros (Hb & _). unfold MODEL_PATH, META_PATH. rewrite Hb. split; reflexivity.
Qed.

Lemma load_model_assets_agree (E1 E2 : Env) (w1 w2 : World) :
  same_but_meta E1 E2 -> agree_but_meta w1 w2 ->
  exists m j1 j2 wa1 wa2,
    load_model_assets E1 w1 = (Ok (m, j1), wa1) /\
    load_model_assets E2 w2 = (Ok (m, j2), wa2) /\
    agree_but_meta wa1 wa2.
Proof.
  intros HE (Hc & Hl & Hn & Hk & Hlog).
  destruct (cache w1) as [[m1 j1] | ] eqn:Hc1; destruct (cache w2) as [[m2 j2] | ] eqn:Hc2;
    try discriminate.
  - injection Hc as <-. exists m1, j1, j2, w1, w2.
    rewrite (load_model_assets_hit E1 w1 _ Hc1), (load_model_assets_hit E2 w2 _ Hc2).
    repeat split; try assumption. rewrite Hc1, Hc2. reflexivity.
  - unfold load_model_assets, cache_resource. rewrite Hc1, Hc2.
    rewrite !load_model_assets_body_eq. cbv zeta.
    destruct (same_but_meta_paths E1 E2 HE) as [Hmp Hjp].
    destruct HE as (_ & Hlm & Hlw & [ja Hja] & [jb Hjb]).
    rewrite Hja, Hjb, Hlm, Hlw, Hmp, Hjp, Hl, Hn, Hk, Hlog.
    destruct (load_model E2 (MODEL_PATH E2) false) as [net | e1];
      [| destruct (load_weights E2 fallback_layers (MODEL_PATH E2)) as [net | e2]];
      do 5 eexists; (split; [reflexivity | split; [reflexivity|]]);
      repeat split.
Qed.

Lemma main_agree (E1 E2 : Env) (P : PIL) (upload : option (list Byte.byte))
      (w1 w2 : World) :
  same_but_meta E1 E2 -> agree_but_meta w1 w2 ->
  fst (main E1 P upload w1) = fst (main E2 P upload w2) /\
  agree_but_meta (snd (main E1 P upload w1)) (snd (main E2 P upload w2)).
Proof.
  intros HE Hw.
  destruct (load_model_assets_agree E1 E2 w1 w2 HE Hw)
    as (m & j1 & j2 & wa1 & wa2 & H1 & H2 & (Hc & Hl & Hn & Hk & Hlog)).
  rewrite (main_eq E1 P upload w1 wa1 _ H1), (main_eq E2 P upload w2 wa2 _ H2).
  rewrite !init_uploader_key_eq. cbn [fst snd].
  assert (Hbase : agree_but_meta
            (mk_World (cache wa1) (loads wa1) (next_addr wa1)
               (Some match uploader_key wa1 with Some k => k | None => 0%nat end) (log wa1))
            (mk_World (cache wa2) (loads wa2) (next_addr wa2)
               (Some match uploader_key wa2 with Some k => k | None => 0%nat end) (log wa2))).
  { unfold agree_but_meta. cbn [cache loads next_addr uploader_key log].
    rewrite Hk. repeat split; assumption. }
  destruct upload as [file | ]; [destruct m as [model | ] |];
    try (split; [reflexivity | exact Hbase]).
  rewrite !classify_eq. cbn [fst snd]. split; [reflexivity|].
  destruct Hbase as (Hc' & Hl' & Hn' & Hk' & Hlog').
  unfold agree_but_meta, add_log. cbn [cache loads next_addr uploader_key log] in *.
  rewrite Hlog'. repeat split; assumption.
Qed.

Lemma step_agree (E1 E2 : Env) (P : PIL) (a : Action) (w1 w2 : World) :
  same_but_meta E1 E2 -> agree_but_meta w1 w2 ->
  agree_but_meta (step E1 P w1 a) (step E2 P w2 a).
Proof.
  intros HE Hw. destruct a as [upload | ]; cbn [step].
  - apply main_agree; assumption.
  - unfold bind, handle_restart.
    pose proof Hw as (Hc & Hl & Hn & Hk & Hlog). rewrite Hk.
    destruct (uploader_key w2) as [k | ]; [|exact Hw].
    apply main_agree; [exact HE|].
    unfold agree_but_meta. cbn [cache loads next_addr uploader_key log].
    repeat split; assumption.
Qed.

(** X7.  The content of the metadata file decides nothing: two
    environments that differ only in what the (readable) metadata holds
    give the same log over every sequence of actions, and the same model
    in the cache. *)
Theorem metadata_decides_nothing (E1 E2 : Env) :
  same_but_meta E1 E2 ->
  forall P acts,
    log (run_session E1 P acts init_world) = log (run_session E2 P acts init_world) /\
    option_map fst (cache (run_session E1 P acts init_world)) =
    option_map fst (cache (run_session E2 P acts init_world)).
Proof.
  intros HE P acts.
  assert (H : forall w1 w2, agree_but_meta w1 w2 ->
            agree_but_meta (run_session E1 P acts w1) (run_session E2 P acts w2)).
  { induction acts as [ | a acts IH]; intros w1 w2 Hw; [exact Hw|].
    cbn [run_session fold_left]. apply IH. apply step_agree; assumption. }
  destruct (H init_world init_world) as (Hc & _ & _ & _ & Hlog).
  - repeat split.
  - split; assumption.
Qed.

Lemma metadata_decides_nothing_example :
  same_but_meta env_direct env_other_meta /\
  log (run_session env_direct stub_PIL [Rerun (Some [Byte.x80])] init_world) =
  log (run_session env_other_meta stub_PIL [Rerun (Some [Byte.x80])] init_world).
Proof.
  assert (HE : same_but_meta env_direct env_other_meta).
  { unfold same_but_meta. repeat split; eexists; reflexivity. }
  split; [exact HE|].
  exact (proj1 (metadata_decides_nothing env_direct env_other_meta HE stub_PIL _)).
Defined.

(** ** What one run does *)

Lemma predict_addrs_app (a b : list Event) :
  predict_addrs (a ++ b) = predict_addrs a ++ predict_addrs b.
Proof. unfold predict_addrs. apply flat_map_app. Qed.

Lemma predict_addrs_quiet (evs : list Event) :
  quiet evs -> predict_addrs evs = [].
Proof.
  unfold quiet. induction 1 as [ | ev evs Hev _ IH]; [reflexivity|].
  change (predict_addrs (ev :: evs)) with
    ((match ev with EvPredict a _ => [a] | _ => [] end) ++ predict_addrs evs).
  rewrite IH. destruct ev; try reflexivity; discriminate.
Qed.

Lemma classify_outcome_addrs (P : PIL) (model : Model) (file : list Byte.byte) :
  predict_addrs (snd (classify_outcome P model file)) =
  match Image_open P file with
  | Ok img =>
      match st_image P (convert P img ModeRGB) 220 with
      | Ok _ => [m_addr model]
      | Raise _ => []
      end
  | Raise _ => []
  end.
Proof.
  unfold classify_outcome.
  destruct (Image_open P file) as [img | e]; [|reflexivity].
  destruct (st_image P (convert P img ModeRGB) 220) as [[] | e]; [|reflexivity].
  cbv zeta.
  destruct (m_net model (preprocess P (convert P img ModeRGB))) as [out | e];
    [|reflexivity].
  destruct (first_scalar out) as [x | e]; [|reflexivity].
  cbn [snd]. rewrite predict_addrs_app.
  destruct (is_high x); reflexivity.
Qed.

(** X8.  A run calls [model.predict] at most once, and exactly when a
    file is uploaded, the accessor returns a model, the file decodes and
    [st.image] has drawn the picture; the call is on that model object with
    the preprocessed image. *)
Theorem predict_exactly_when (E : Env) (P : PIL)
        (upload : option (list Byte.byte)) (w : World) :
  predict_inputs (events_since w (snd (main E P upload w))) =
    match upload, model_in E w with
    | Some file, Some model =>
        match Image_open P file with
        | Ok img =>
            match st_image P (convert P img ModeRGB) 220 with
            | Ok _ => [preprocess P (convert P img ModeRGB)]
            | Raise _ => []
            end
        | Raise _ => []
        end
    | _, _ => []
    end /\
  predict_addrs (events_since w (snd (main E P upload w))) =
    match upload, model_in E w with
    | Some file, Some model =>
        match Image_open P file with
        | Ok img =>
            match st_image P (convert P img ModeRGB) 220 with
            | Ok _ => [m_addr model]
            | Raise _ => []
            end
        | Raise _ => []
        end
    | _, _ => []
    end.
Proof.
  destruct (main_events E P upload w) as (evs0 & Hq & Hev & _).
  rewrite Hev, predict_inputs_app, predict_addrs_app,
    (predict_inputs_quiet _ Hq), (predict_addrs_quiet _ Hq).
  cbn [app].
  destruct upload as [file | ]; [destruct (model_in E w) as [model | ] |];
    try (split; reflexivity).
  rewrite classify_outcome_inputs, classify_outcome_addrs. split; reflexivity.
Qed.

(** X10.  Failed loading never makes a run raise: a run without upload,
    and a run that finds no model, ends normally whatever the environment
    holds.  With an upload and a model, an exception of the decoder, of
    [st.image] or of the network escapes the run as it is. *)
Theorem main_raises_only_in_classification (E : Env) (P : PIL) (w : World) :
  fst (main E P None w) = Ok tt /\
  (forall file, model_in E w = None -> fst (main E P (Some file) w) = Ok tt) /\
  (forall file model e,
      model_in E w = Some model ->
      (Image_open P file = Raise e \/
       exists img,
         Image_open P file = Ok img /\
         (st_image P (convert P img ModeRGB) 220 = Raise e \/
          (st_image P (convert P img ModeRGB) 220 = Ok tt /\
           m_net model (preprocess P (convert P img ModeRGB)) = Raise e))) ->
      fst (main E P (Some file) w) = Raise e).
Proof.
  split; [|split].
  - destruct (main_events E P None w) as (_ & _ & _ & Hr). exact Hr.
  - intros file Hm. destruct (main_events E P (Some file) w) as (_ & _ & _ & Hr).
    rewrite Hm in Hr. exact Hr.
  - intros file model e Hm H.
    destruct (main_events E P (Some file) w) as (_ & _ & _ & Hr).
    rewrite Hm in Hr. rewrite Hr. unfold classify_outcome.
    destruct H as [-> | (img & -> & H)]; [reflexivity|].
    destruct H as [-> | [-> H]]; [reflexivity|]. cbv zeta. rewrite H. reflexivity.
Qed.

(** ** Label, colour and advisory agree *)

Lemma count_events_app (f : Event -> bool) (a b : list Event) :
  count_events f (a ++ b) = (count_events f a + count_events f b)%nat.
Proof. unfold count_events. rewrite filter_app, length_app. reflexivity. Qed.

Lemma count_events_quiet (f : Event -> bool) (evs : list Event) :
  (forall ev, f ev = true -> is_inference ev = true) ->
  quiet evs -> count_events f evs = 0%nat.
Proof.
  intros Hf. unfold quiet, count_events.
  induction 1 as [ | ev evs Hev _ IH]; [reflexivity|].
  cbn [filter]. destruct (f ev) eqn:Hfe; [|exact IH].
  apply Hf in Hfe. congruence.
Qed.

Lemma advisory_consistent_app (a b : list Event) :
  advisory_consistent a -> advisory_consistent b -> advisory_consistent (a ++ b).
Proof.
  unfold advisory_consistent. intros (A1 & A2 & A3) (B1 & B2 & B3).
  rewrite !count_events_app. lia.
Qed.

Lemma advisory_consistent_quiet (evs : list Event) :
  quiet evs -> advisory_consistent evs.
Proof.
  intros Hq. unfold advisory_consistent.
  rewrite !(count_events_quiet _ evs) by
    (exact Hq || (intros [] H; (reflexivity || discriminate H))).
  repeat split.
Qed.

Lemma advisory_consistent_classify (P : PIL) (model : Model) (file : list Byte.byte) :
  advisory_consistent (snd (classify_outcome P model file)).
Proof.
  unfold classify_outcome.
  destruct (Image_open P file) as [img | e]; [|repeat split].
  destruct (st_image P (convert P img ModeRGB) 220) as [[] | e]; [|repeat split].
  cbv zeta.
  destruct (m_net model (preprocess P (convert P img ModeRGB))) as [out | e];
    [|repeat split].
  destruct (first_scalar out) as [x | e]; [|repeat split].
  cbn [snd]. apply advisory_consistent_app; [repeat split|].
  unfold status_class, label. destruct (is_high x); repeat split.
Qed.

Lemma main_advisory_consistent (E : Env) (P : PIL)
      (upload : option (list Byte.byte)) (w : World) :
  advisory_consistent (log w) ->
  advisory_consistent (log (snd (main E P upload w))).
Proof.
  intros Hw.
  destruct (main_frame E P upload w) as (v & wa & evs & Hl & _ & _ & Hlog & Hevs).
  destruct (load_model_assets_returns E w)
    as (v' & wa' & evs0 & Hl' & _ & _ & Hlog0 & Hq0 & _).
  rewrite Hl in Hl'. injection Hl' as <- <-.
  rewrite Hlog, Hlog0.
  apply advisory_consistent_app;
    [apply advisory_consistent_app; [exact Hw | apply advisory_consistent_quiet; exact Hq0]|].
  subst evs.
  destruct upload as [file | ]; [destruct (fst v) as [model | ] |].
  - apply advisory_consistent_classify.
  - repeat split.
  - repeat split.
Qed.

(** X9.  In the log of every session the warnings are as many as the red
    "high risk" result blocks, the success messages as many as the green
    "low risk" blocks, and every result block has exactly one of the two. *)
Theorem advisory_matches_result (E : Env) (P : PIL) (acts : list Action) :
  advisory_consistent (log (run_session E P acts init_world)).
Proof.
  assert (H : forall w, advisory_consistent (log w) ->
                        advisory_consistent (log (run_session E P acts w))).
  { induction acts as [ | a acts IH]; intros w Hw; [exact Hw|].
    cbn [run_session fold_left]. apply IH.
    destruct a as [upload | ]; cbn [step].
    - apply main_advisory_consistent. exact Hw.
    - unfold bind, handle_restart. destruct (uploader_key w) as [k | ].
      + apply main_advisory_consistent. exact Hw.
      + exact Hw. }
  apply H. repeat split.
Qed.

(** ** From the upload to the verdict *)

(** X11.  From the upload to the verdict: when the accessor returns a
    model, the file decodes, [st.image] draws the picture and the network
    answers an array whose first element [x] is a valid finite float, the
    run succeeds and ends with the call of the network on the preprocessed
    image, the result block and the advisory chosen by the strict
    comparison of the value of [x] with one half. *)
Theorem verdict_follows_first_output (E : Env) (P : PIL) (w : World)
        (file : list Byte.byte) (model : Model) (img : Image)
        (out : ndarray float) (x : float) (rest : list float) :
  model_in E w = Some model ->
  Image_open P file = Ok img ->
  st_image P (convert P img ModeRGB) 220 = Ok tt ->
  m_net model (preprocess P (convert P img ModeRGB)) = Ok (PArray out) ->
  data out = x :: rest ->
  valid x = true -> is_finite x = true ->
  fst (main E P (Some file) w) = Ok tt /\
  exists evs,
    events_since w (snd (main E P (Some file) w)) =
      evs ++ [EvPredict (m_addr model) (preprocess P (convert P img ModeRGB));
              EvResult (if Qlt_le_dec (1 # 2) (value x)
                        then "risk-high-text" else "risk-low-text")
                       (if Qlt_le_dec (1 # 2) (value x)
                        then "high risk" else "low risk")
                       (percent x);
              if Qlt_le_dec (1 # 2) (value x) then EvWarning else EvSuccess].
Proof.
  intros Hm Hopen Hdraw Hnet Hdata Hv Hf.
  destruct (main_events E P (Some file) w) as (evs0 & _ & Hev & Hr).
  rewrite Hm in Hev, Hr. rewrite Hev, Hr.
  unfold classify_outcome. rewrite Hopen, Hdraw. cbv zeta. rewrite Hnet.
  unfold first_scalar, getitem0, flatten. cbn [data]. rewrite Hdata. cbn [fst snd].
  split; [reflexivity|].
  exists (evs0 ++ [EvImageOpen file; EvImage 220]).
  rewrite <- !app_assoc. f_equal. cbn [app]. do 3 f_equal.
  pose proof (is_high_spec x Hv Hf) as Hs.
  unfold status_class, label.
  destruct (Qlt_le_dec (1 # 2) (value x)) as [Hlt | Hle].
  - rewrite (proj2 Hs Hlt). reflexivity.
  - destruct (is_high x) eqn:Hh; [|reflexivity].
    exfalso. apply (Qle_not_lt _ _ Hle). apply Hs. reflexivity.
Qed.

Lemma verdict_follows_first_output_example :
  model_in env_direct init_world = Some (mk_Model 0 net_09) /\
  fst (main env_direct stub_PIL (Some [Byte.x80]) init_world) = Ok tt.
Proof.
  split; [reflexivity|].
  exact (proj1 (verdict_follows_first_output env_direct stub_PIL init_world
                  [Byte.x80] (mk_Model 0 net_09)
                  (mk_Image ModeL (1%nat, 1%nat) [128])
                  (mk_ndarray [1%nat; 1%nat] [decimal 9 1]) (decimal 9 1) []
                  eq_refl eq_refl eq_refl eq_refl eq_refl eq_refl eq_refl)).
Defined.

(** ** The rebuilt backbone fits the preprocessed image *)

(** X12.  The backbone of the fallback architecture is declared for the
    very shape the preprocessor produces: the tensor made of any decoded
    image has the batch axis 1 followed by the [input_shape] of line 70. *)
Theorem fallback_input_shape_fits (P : PIL) (im : Image) :
  PIL_contract P -> wf_image im ->
  exists wts top sh rest,
    fallback_layers = MobileNetV2 wts top sh :: rest /\
    shape (preprocess P (convert P im ModeRGB)) = 1%nat :: sh.
Proof.
  intros HP Him.
  destruct (preprocess_rgb_tensor P im HP Him) as (Hsh & _).
  do 4 eexists. split; [reflexivity | exact Hsh].
Qed.

Lemma fallback_input_shape_fits_example :
  PIL_contract stub_PIL /\ wf_image grey_pixel /\
  exists wts top sh rest,
    fallback_layers = MobileNetV2 wts top sh :: rest /\
    shape (preprocess stub_PIL (convert stub_PIL grey_pixel ModeRGB)) = 1%nat :: sh.
Proof.
  split; [exact stub_PIL_contract | split; [exact grey_pixel_wf|]].
  exact (fallback_input_shape_fits stub_PIL grey_pixel stub_PIL_contract grey_pixel_wf).
Defined.
